(** * SublimeJEDI daemon ([jedi_daemon.py]): a shallow embedding

    The daemon reads one JSON request per line on standard input, hands it
    to a facade over a source analysis engine (Jedi) and writes one JSON
    line per answer on standard output.

    Conventions of the embedding.
    - Python text is [string]; a character is a code point below 256.
    - A Python call that may raise is a value of [result]: [Ok v] for a
      normal return, [Raise e] for an exception of class [e].
    - The analysis engine is outside the repository.  A session
      ([jedi.Script]) is a record holding, for each of the four queries
      the daemon issues, what the engine answers at the cursor: a value
      or an exception.
    - [sys.stdout] is a record: the text written so far and whether the
      reader of the pipe has gone (a flush then fails with [IOError]).
    - [json.loads] and [jedi.Script(...)] are library behaviour: the
      dispatcher and the loop take them as Section variables.  A
      reference decoder for integer-only JSON instantiates the first at
      concrete request lines. *)

From Stdlib Require Import List String Ascii Bool Arith ZArith Lia.
From Stdlib Require Import Numbers.DecimalString Floats.SpecFloat.
Import ListNotations.

Set Warnings "-register-all".

Open Scope list_scope.
Open Scope string_scope.

(** ** Exceptions and fallible computations *)

(** The exception classes the daemon, the interpreter and the engine
    raise.  [SystemExit] is what [sys.exit()] raises; it is the only
    class here that does not derive from [Exception]. *)
Inductive exn : Type :=
| TypeError
| ValueError
| KeyError
| IndexError
| AttributeError
| AssertionError
| OverflowError
| IOError
| NotFoundError
| EngineError (cls : string)
| SystemExit.

Definition exn_eqb (a b : exn) : bool :=
  match a, b with
  | TypeError, TypeError | ValueError, ValueError | KeyError, KeyError
  | IndexError, IndexError | AttributeError, AttributeError
  | AssertionError, AssertionError | OverflowError, OverflowError
  | IOError, IOError | NotFoundError, NotFoundError
  | SystemExit, SystemExit => true
  | EngineError c, EngineError d => String.eqb c d
  | _, _ => false
  end.

(** [isinstance(e, Exception)] *)
Definition is_Exception (e : exn) : bool :=
  match e with
  | SystemExit => false
  | _ => true
  end.

Inductive result (A : Type) : Type :=
| Ok (a : A)
| Raise (e : exn).
Arguments Ok {A} a.
Arguments Raise {A} e.

Definition bind {A B} (r : result A) (k : A -> result B) : result B :=
  match r with
  | Ok a => k a
  | Raise e => Raise e
  end.

Notation "x <- c ;; k" := (bind c (fun x => k))
  (at level 61, c at next level, right associativity).
Notation "' p <- c ;; k" := (bind c (fun x => match x with p => k end))
  (at level 61, p pattern, c at next level, right associativity).

(** [try: body  except cls: handler] where the body's value is the value
    of the statement.  The handler runs only for an exception that is an
    instance of [cls]; any other exception leaves the statement. *)
Definition try_except {A} (body : result A) (cls : exn -> bool)
    (handler : result A) : result A :=
  match body with
  | Ok a => Ok a
  | Raise e => if cls e then handler else Raise e
  end.

(** [try: body  except cls: handler  else: orelse], the [else] block
    running on the body's value, outside the reach of the handler. *)
Definition try_except_else {A B} (body : result A) (cls : exn -> bool)
    (handler : result B) (orelse : A -> result B) : result B :=
  match body with
  | Ok a => orelse a
  | Raise e => if cls e then handler else Raise e
  end.

(** ** Text *)

Definition newline : ascii := "010"%char.
Definition tab : ascii := "009"%char.
Definition nl : string := String newline "".

(** [str.isspace] on one character (code points below 256). *)
Definition is_space (c : ascii) : bool :=
  let n := nat_of_ascii c in
  (((9 <=? n) && (n <=? 13)) || ((28 <=? n) && (n <=? 32))
   || (n =? 133) || (n =? 160))%nat.

Fixpoint lstrip (s : string) : string :=
  match s with
  | "" => ""
  | String c s' => if is_space c then lstrip s' else s
  end.

Fixpoint rstrip (s : string) : string :=
  match s with
  | "" => ""
  | String c s' =>
      let r := rstrip s' in
      if is_space c && (r =? "") then "" else String c r
  end.

(** [s.strip()] *)
Definition strip (s : string) : string := rstrip (lstrip s).

(** [c in s] for a one-character [c] *)
Fixpoint contains (c : ascii) (s : string) : bool :=
  match s with
  | "" => false
  | String d s' => Ascii.eqb c d || contains c s'
  end.

(** [s.split(sep)] for a one-character separator: never an empty list. *)
Fixpoint str_split (sep : ascii) (s : string) : list string :=
  match s with
  | "" => [""]
  | String c s' =>
      if Ascii.eqb c sep then "" :: str_split sep s'
      else match str_split sep s' with
           | h :: t => String c h :: t
           | [] => [String c ""]
           end
  end.

(** [s.endswith('\n')] *)
Fixpoint endswith_nl (s : string) : bool :=
  match s with
  | "" => false
  | String c "" => Ascii.eqb c newline
  | String _ s' => endswith_nl s'
  end.

(** ['%d' % n] for a natural number *)
Definition str_of_nat (n : nat) : string :=
  NilEmpty.string_of_uint (Nat.to_uint n).

(** ['%d' % z] *)
Definition str_of_Z (z : Z) : string :=
  NilEmpty.string_of_int (Z.to_int z).

(** ** The analysis engine at its boundary *)

Module jedi.

(** A parameter of a call signature; [get_code] is its source text. *)
Record Param : Type := { get_code : string }.

(** [jedi.api_classes.CallDef] *)
Record CallDef : Type := { params : list Param }.

(** [jedi.api_classes.Completion] *)
Record Completion : Type := { name : string; type : string }.

(** A definition or usage site ([jedi.api_classes.BaseDefinition]). *)
Record BaseDefinition : Type :=
  { module_path : string;
    line : Z;
    column : Z;
    in_builtin_module : bool }.

(** One session bound to a cursor.  [call_signatures] is [None] when
    the engine's answer is falsy (no call is active at the cursor). *)
Record Script : Type :=
  { call_signatures : result (option CallDef);
    completions : result (list Completion);
    goto_assignments : result (list BaseDefinition);
    usages : result (list BaseDefinition) }.

End jedi.

(** ** Formatting helpers of the daemon *)

(** [format_completion(complete)] *)
Definition format_completion (complete : jedi.Completion)
  : string * string :=
  let display := jedi.name complete ++ String tab "" ++ jedi.type complete in
  let insert := jedi.name complete in
  (display, insert).

(** [get_function_parameters(callDef)]: one list per kept parameter, the
    pieces of its text around ['=']. *)
Definition get_function_parameters (callDef : option jedi.CallDef)
  : list (list string) :=
  match callDef with
  | None => []
  | Some cd =>
      fold_left
        (fun params param =>
           let cleaned_param := strip (jedi.get_code param) in
           if contains "*"%char cleaned_param || (cleaned_param =? "self")
           then params
           else app params [map strip (str_split "="%char cleaned_param)])
        (jedi.params cd) []
  end.

(** [name, value = parameter]: unpacking into two targets raises
    [ValueError] unless the list has exactly two elements. *)
Definition unpack2 (parameter : list string) : result (string * string) :=
  match parameter with
  | [n; v] => Ok (n, v)
  | _ => Raise ValueError
  end.

(** [parameter[0]] *)
Definition item0 (parameter : list string) : result string :=
  match parameter with
  | x :: _ => Ok x
  | [] => Raise IndexError
  end.

(** The statement both loops over parameters start with:
<<
    try:
        name, value = parameter
    except IndexError:
        name = parameter[0]
        value = None
>>
    The value is the pair of [name] and [value] ([None] for Python's
    [None]). *)
Definition name_and_value (parameter : list string)
  : result (string * option string) :=
  try_except
    ('(n, v) <- unpack2 parameter ;; Ok (n, Some v))
    (exn_eqb IndexError)
    (n <- item0 parameter ;; Ok (n, None)).

(** ** The facade *)

Record JediFacade : Type := { script : jedi.Script }.

(** [x or []] on a list *)
Definition or_nil {A} (x : list A) : list A :=
  match x with
  | [] => []
  | _ => x
  end.

(** The loop of [_parameters_for_completion], the accumulator being the
    list [completions]. *)
Fixpoint parameters_loop (parameters : list (list string))
    (completions : list (string * string))
  : result (list (string * string)) :=
  match parameters with
  | [] => Ok completions
  | parameter :: rest =>
      '(n, value) <- name_and_value parameter ;;
      match value with
      | None =>
          parameters_loop rest
            (app completions [(n, "${1:" ++ n ++ "}")])
      | Some v =>
          parameters_loop rest
            (app completions
               [(n ++ String tab "" ++ v, n ++ "=${1:" ++ v ++ "}")])
      end
  end.

Definition _parameters_for_completion (self : JediFacade)
  : result (list (string * string)) :=
  in_call <- jedi.call_signatures (script self) ;;
  let parameters := get_function_parameters in_call in
  parameters_loop parameters [].

Definition _completion (self : JediFacade)
  : result (list (string * string)) :=
  completions <- jedi.completions (script self) ;;
  Ok (map format_completion completions).

Definition location (i : jedi.BaseDefinition) : string * Z * Z :=
  (jedi.module_path i, jedi.line i, jedi.column i).

Definition outside_builtins (l : list jedi.BaseDefinition)
  : list (string * Z * Z) :=
  map location (filter (fun i => negb (jedi.in_builtin_module i)) l).

(** [_goto]: [None] is Python's [None]. *)
Definition _goto (self : JediFacade)
  : result (option (list (string * Z * Z))) :=
  try_except_else
    (jedi.goto_assignments (script self))
    (exn_eqb NotFoundError)
    (Ok None)
    (fun definitions => Ok (Some (outside_builtins definitions))).

Definition _usages (self : JediFacade) : result (list (string * Z * Z)) :=
  usages <- jedi.usages (script self) ;;
  Ok (outside_builtins usages).

(** The loop of [_complete_call_assigments] over
    [enumerate(parameters)]; [index] is the index of the head. *)
Fixpoint call_assigments_loop (complete_all : bool)
    (parameters : list (list string)) (index : nat)
    (completions : list string) : result (list string) :=
  match parameters with
  | [] => Ok completions
  | parameter :: rest =>
      '(n, value) <- name_and_value parameter ;;
      match value with
      | None =>
          call_assigments_loop complete_all rest (S index)
            (app completions
               ["${" ++ str_of_nat (index + 1) ++ ":" ++ n ++ "}"])
      | Some v =>
          if complete_all then
            call_assigments_loop complete_all rest (S index)
              (app completions
                 [n ++ "=${" ++ str_of_nat (index + 1) ++ ":" ++ v ++ "}"])
          else
            call_assigments_loop complete_all rest (S index) completions
      end
  end.

(** [auto_complete_function_params] is a module global; the operations
    that read it take it as an argument. *)
Definition _complete_call_assigments
    (auto_complete_function_params : string) (self : JediFacade)
  : result string :=
  let complete_all := auto_complete_function_params =? "all" in
  in_call <- jedi.call_signatures (script self) ;;
  let parameters := get_function_parameters in_call in
  completions <- call_assigments_loop complete_all parameters 0 [] ;;
  Ok (String.concat ", " completions).

Definition get_goto (self : JediFacade) := _goto self.
Definition get_usages (self : JediFacade) := _usages self.
Definition get_funcargs (auto_complete_function_params : string)
    (self : JediFacade) :=
  _complete_call_assigments auto_complete_function_params self.

Definition get_autocomplete (self : JediFacade)
  : result (list (string * string)) :=
  ps <- _parameters_for_completion self ;;
  let data := or_nil ps in
  cs <- _completion self ;;
  Ok (app data (or_nil cs)).

(** ** Python values on the wire *)

(** A float with the text [float.__repr__] prints for it; the printing
    algorithm is the interpreter's and is not computed here. *)
Record pyfloat : Type :=
  { float_value : spec_float;
    float_repr : string }.

(** The values [json.loads] builds, and the bound method the dispatcher
    returns.  A dict keeps its keys in insertion order. *)
Inductive pyval : Type :=
| PNone
| PBool (b : bool)
| PInt (z : Z)
| PFloat (f : pyfloat)
| PStr (s : string)
| PList (l : list pyval)
| PDict (d : list (string * pyval))
| PMethod (attr : string).

Definition dict : Type := list (string * pyval).

Fixpoint dict_lookup (d : dict) (k : string) : option pyval :=
  match d with
  | [] => None
  | (k', v) :: d' => if k' =? k then Some v else dict_lookup d' k
  end.

(** [d[k] = v]: an existing key keeps its place. *)
Fixpoint dict_set (d : dict) (k : string) (v : pyval) : dict :=
  match d with
  | [] => [(k, v)]
  | (k', v') :: d' =>
      if k' =? k then (k', v) :: d' else (k', v') :: dict_set d' k v
  end.

(** [bool(v)] *)
Definition is_truthy (v : pyval) : bool :=
  match v with
  | PNone => false
  | PBool b => b
  | PInt z => negb (z =? 0)%Z
  | PFloat f =>
      match float_value f with
      | S754_zero _ => false
      | _ => true
      end
  | PStr s => negb (s =? "")
  | PList l => match l with [] => false | _ => true end
  | PDict d => match d with [] => false | _ => true end
  | PMethod _ => true
  end.

Definition is_digit (c : ascii) : bool :=
  let n := nat_of_ascii c in ((48 <=? n) && (n <=? 57))%nat.

Definition digit_value (c : ascii) : Z := Z.of_nat (nat_of_ascii c - 48).

(** Decimal digits, single underscores allowed between two digits. *)
Fixpoint digits_value (s : string) (acc : Z) (after_digit : bool)
  : option Z :=
  match s with
  | "" => if after_digit then Some acc else None
  | String c s' =>
      if is_digit c then digits_value s' (10 * acc + digit_value c)%Z true
      else if Ascii.eqb c "_"%char && after_digit
           then digits_value s' acc false
           else None
  end.

(** [int(s)] for text *)
Definition int_of_str (s : string) : result Z :=
  let body := strip s in
  let signed :=
    match body with
    | String "-"%char r => option_map Z.opp (digits_value r 0%Z false)
    | String "+"%char r => digits_value r 0%Z false
    | _ => digits_value body 0%Z false
    end in
  match signed with
  | Some z => Ok z
  | None => Raise ValueError
  end.

(** [int(f)] for a float: truncation towards zero. *)
Definition int_of_float (f : spec_float) : result Z :=
  match f with
  | S754_zero _ => Ok 0%Z
  | S754_infinity _ => Raise OverflowError
  | S754_nan => Raise ValueError
  | S754_finite s m e =>
      let magnitude :=
        if (0 <=? e)%Z then (Z.pos m * 2 ^ e)%Z
        else (Z.pos m / 2 ^ (- e))%Z in
      Ok (if s then (- magnitude)%Z else magnitude)
  end.

(** [int(v)] *)
Definition py_int (v : pyval) : result Z :=
  match v with
  | PInt z => Ok z
  | PBool b => Ok (if b then 1%Z else 0%Z)
  | PFloat f => int_of_float (float_value f)
  | PStr s => int_of_str s
  | _ => Raise TypeError
  end.

(** ** [json.dumps] with its default settings *)

Definition dq : ascii := "034"%char.
Definition backslash : ascii := "092"%char.

Definition hex_digit (n : nat) : ascii :=
  if (n <? 10)%nat then ascii_of_nat (48 + n) else ascii_of_nat (87 + n).

(** One character of a JSON string, [ensure_ascii] being on. *)
Definition json_char (c : ascii) : string :=
  let n := nat_of_ascii c in
  if Ascii.eqb c dq then String backslash (String dq "")
  else if Ascii.eqb c backslash then String backslash (String backslash "")
  else if (n =? 8)%nat then String backslash "b"
  else if (n =? 12)%nat then String backslash "f"
  else if (n =? 10)%nat then String backslash "n"
  else if (n =? 13)%nat then String backslash "r"
  else if (n =? 9)%nat then String backslash "t"
  else if ((32 <=? n) && (n <=? 126))%nat then String c ""
  else String backslash
         (String "u"%char (String "0"%char (String "0"%char
            (String (hex_digit (n / 16)) (String (hex_digit (n mod 16)) ""))))).

Fixpoint json_chars (s : string) : string :=
  match s with
  | "" => ""
  | String c s' => json_char c ++ json_chars s'
  end.

Definition json_str (s : string) : string :=
  String dq (json_chars s ++ String dq "").

Definition json_float (f : pyfloat) : string :=
  match float_value f with
  | S754_nan => "NaN"
  | S754_infinity false => "Infinity"
  | S754_infinity true => "-Infinity"
  | _ => float_repr f
  end.

(** A value that is not JSON (here: a bound method) raises [TypeError]. *)
Fixpoint json_dumps (v : pyval) : result string :=
  match v with
  | PNone => Ok "null"
  | PBool true => Ok "true"
  | PBool false => Ok "false"
  | PInt z => Ok (str_of_Z z)
  | PFloat f => Ok (json_float f)
  | PStr s => Ok (json_str s)
  | PList l =>
      items <- (fix items (l : list pyval) : result (list string) :=
                  match l with
                  | [] => Ok []
                  | x :: r =>
                      sx <- json_dumps x ;;
                      sr <- items r ;;
                      Ok (sx :: sr)
                  end) l ;;
      Ok ("[" ++ String.concat ", " items ++ "]")
  | PDict d =>
      items <- (fix items (d : dict) : result (list string) :=
                  match d with
                  | [] => Ok []
                  | (k, x) :: r =>
                      sx <- json_dumps x ;;
                      sr <- items r ;;
                      Ok ((json_str k ++ ": " ++ sx) :: sr)
                  end) d ;;
      Ok ("{" ++ String.concat ", " items ++ "}")
  | PMethod _ => Raise TypeError
  end.

(** ** The output writer *)

Record stdout_t : Type :=
  { written : string;
    reader_gone : bool }.

(** [sys.stdout.write(s)] *)
Definition stdout_write (s : string) (o : stdout_t) : stdout_t :=
  {| written := written o ++ s; reader_gone := reader_gone o |}.

(** [sys.stdout.flush()] *)
Definition stdout_flush (o : stdout_t) : result unit :=
  if reader_gone o then Raise IOError else Ok tt.

(** The text [write] sends: its argument when that is text, else its
    JSON serialization. *)
Definition text_of (data : pyval) : result string :=
  match data with
  | PStr s => Ok s
  | _ => json_dumps data
  end.

(** [write(data)]: the outcome and the stream afterwards. *)
Definition write (data : pyval) (o : stdout_t) : result unit * stdout_t :=
  match text_of data with
  | Raise e => (Raise e, o)
  | Ok data =>
      let o1 := stdout_write data o in
      let o2 := if negb (endswith_nl data) then stdout_write nl o1 else o1 in
      (try_except (stdout_flush o2) (exn_eqb IOError) (Raise SystemExit), o2)
  end.

(** [s] without its first [n] characters *)
Fixpoint drop (n : nat) (s : string) : string :=
  match n, s with
  | S n', String _ r => drop n' r
  | _, _ => s
  end.

(** What was written between two states of the stream. *)
Definition emitted (before after : stdout_t) : string :=
  drop (String.length (written before)) (written after).

(** The number of newline characters [s] ends with. *)
Fixpoint trailing_newlines (s : string) : nat :=
  match s with
  | "" => 0
  | String c r =>
      if Ascii.eqb c newline && (trailing_newlines r =? String.length r)%nat
      then S (String.length r)
      else trailing_newlines r
  end.

(** ** The request dispatcher and the daemon loop *)

Inductive log_record : Type :=
| LogException (msg : string) (e : exn).

(** What the loop works on: the output stream and the log file. *)
Record world : Type :=
  { out : stdout_t;
    log : list log_record }.

(** How the loop ends: the input is exhausted, or an exception that the
    loop does not catch ends the process. *)
Inductive exit : Type :=
| EndOfInput
| Exited (e : exn).

(** What the handler of the loop makes of one line's outcome. *)
Inductive handled : Type :=
| Continue (l : list log_record)
| Uncaught (e : exn).

(** The parameters of [JediFacade.__init__] after [self]. *)
Definition init_parameters : list string :=
  ["source"; "line"; "offset"; "filename"; "encoding"].

Definition option_default {A} (d : A) (o : option A) : A :=
  match o with
  | Some a => a
  | None => d
  end.

(** [getattr(self, attr)] on a facade, for a name that starts with
    [get_]: the four operations are the only such attributes. *)
Definition facade_getattr (self : JediFacade) (attr : string)
  : result pyval :=
  if existsb (String.eqb attr)
       ["get_goto"; "get_usages"; "get_funcargs"; "get_autocomplete"]
  then Ok (PMethod attr)
  else Raise AttributeError.

(** [JediFacade.get(action)]: concatenating text and a value that is not
    text raises [TypeError]; the attribute is returned, not called. *)
Definition get (self : JediFacade) (action : pyval) : result pyval :=
  match action with
  | PStr a => facade_getattr self ("get_" ++ a)
  | _ => Raise TypeError
  end.

(** [data.get('type', None)]: only a dict has the method. *)
Definition data_get (data : pyval) (k : string) : result pyval :=
  match data with
  | PDict d => Ok (option_default PNone (dict_lookup d k))
  | _ => Raise AttributeError
  end.

(** [data[k]] for text [k], once [data.get] has succeeded. *)
Definition data_item (data : pyval) (k : string) : result pyval :=
  match data with
  | PDict d =>
      match dict_lookup d k with
      | Some v => Ok v
      | None => Raise KeyError
      end
  | _ => Raise TypeError
  end.

(** [assert c] *)
Definition py_assert (c : bool) : result unit :=
  if c then Ok tt else Raise AssertionError.

(** The dict display of [process_line].  A key of the model is text; the
    computed key is the action type, which [get] has required to be
    text before the dict is built. *)
Definition out_data_of (uuid action_type operation : pyval)
  : result pyval :=
  match action_type with
  | PStr a =>
      Ok (PDict
            (dict_set (dict_set (dict_set [] "uuid" uuid) "type" action_type)
               a operation))
  | _ => Raise TypeError
  end.

Section Daemon.

(** [json.loads]; a document that is not JSON raises [ValueError]. *)
Variable json_loads : string -> result pyval.

(** [jedi.Script(source, line, column, path, encoding)] *)
Variable jedi_Script :
  pyval -> Z -> Z -> pyval -> pyval -> result jedi.Script.

(** [JediFacade.__init__] *)
Definition JediFacade_init (source line offset filename encoding : pyval)
  : result JediFacade :=
  l <- py_int line ;;
  o <- py_int offset ;;
  s <- jedi_Script source l o filename encoding ;;
  Ok {| script := s |}.

(** The call of [JediFacade] with the items of [data] as keyword
    arguments: every key of [data] must name a parameter of [__init__],
    and the three parameters without a default must be given;
    otherwise the call raises [TypeError]. *)
Definition JediFacade_kwargs (data : pyval) : result JediFacade :=
  match data with
  | PDict d =>
      if existsb
           (fun kv => negb (existsb (String.eqb (fst kv)) init_parameters))
           d
      then Raise TypeError
      else
        match dict_lookup d "source", dict_lookup d "line",
              dict_lookup d "offset" with
        | Some source, Some line, Some offset =>
            JediFacade_init source line offset
              (option_default (PStr "") (dict_lookup d "filename"))
              (option_default (PStr "utf-8") (dict_lookup d "encoding"))
        | _, _, _ => Raise TypeError
        end
  | _ => Raise TypeError
  end.

(** The statements of [process_line] before the call of [write]. *)
Definition build_out_data (line : string) : result pyval :=
  data <- json_loads (strip line) ;;
  action_type <- data_get data "type" ;;
  _ <- py_assert (is_truthy action_type) ;;
  uuid <- data_item data "uuid" ;;
  facade <- JediFacade_kwargs data ;;
  operation <- get facade action_type ;;
  out_data_of uuid action_type operation.

(** [process_line(line)] *)
Definition process_line (line : string) (o : stdout_t)
  : result unit * stdout_t :=
  match build_out_data line with
  | Raise e => (Raise e, o)
  | Ok out_data => write out_data o
  end.

(** The body of the loop for one line:
<<
    try:
        process_line(line)
    except Exception:
        log.exception('failed to process line')
>>
    [Uncaught e]: the exception leaves the loop. *)
Definition guarded {A} (r : result A) (l : list log_record) : handled :=
  match r with
  | Ok _ => Continue l
  | Raise e =>
      if is_Exception e
      then Continue (app l [LogException "failed to process line" e])
      else Uncaught e
  end.

(** [for line in iter(sys.stdin.readline, '')]: [stdin] lists what the
    successive calls of [readline] return; the empty text is the
    sentinel (end of input). *)
Fixpoint daemon_loop (stdin : list string) (w : world) : exit * world :=
  match stdin with
  | [] => (EndOfInput, w)
  | line :: rest =>
      if line =? "" then (EndOfInput, w)
      else if is_truthy (PStr line) then
        let (r, o) := process_line line (out w) in
        match guarded r (log w) with
        | Continue l => daemon_loop rest {| out := o; log := l |}
        | Uncaught e => (Exited e, {| out := o; log := log w |})
        end
      else daemon_loop rest w
  end.

End Daemon.

(** ** A reference decoder for request lines

    [json_loads_ref] decodes the fragment of JSON whose numbers are
    integers and whose characters are code points below 256; any other
    text is reported with [ValueError].  It instantiates [json.loads] at
    concrete request lines. *)

Definition is_json_space (c : ascii) : bool :=
  let n := nat_of_ascii c in
  ((n =? 32) || (n =? 9) || (n =? 10) || (n =? 13))%nat.

Fixpoint skip_ws (s : string) : string :=
  match s with
  | String c r => if is_json_space c then skip_ws r else s
  | "" => ""
  end.

(** [Some r] when [s] is [p] followed by [r]. *)
Fixpoint after_prefix (p s : string) : option string :=
  match p, s with
  | "", _ => Some s
  | String a p', String b s' =>
      if Ascii.eqb a b then after_prefix p' s' else None
  | String _ _, "" => None
  end.

Definition hex_value (c : ascii) : option nat :=
  let n := nat_of_ascii c in
  if ((48 <=? n) && (n <=? 57))%nat then Some (n - 48)
  else if ((97 <=? n) && (n <=? 102))%nat then Some (n - 87)
  else if ((65 <=? n) && (n <=? 70))%nat then Some (n - 55)
  else None.

(** The text of a JSON string after its opening quote: the decoded text
    and what follows the closing quote. *)
Fixpoint scan_string (s : string) : option (string * string) :=
  match s with
  | "" => None
  | String c r =>
      if Ascii.eqb c dq then Some ("", r)
      else if Ascii.eqb c backslash then
        match r with
        | String e r1 =>
            let continue (d : ascii) (rest : option (string * string)) :=
              match rest with
              | Some (t, r') => Some (String d t, r')
              | None => None
              end in
            if Ascii.eqb e dq then continue dq (scan_string r1)
            else if Ascii.eqb e backslash
                 then continue backslash (scan_string r1)
            else if Ascii.eqb e "/"%char then continue "/"%char (scan_string r1)
            else if Ascii.eqb e "b"%char
                 then continue (ascii_of_nat 8) (scan_string r1)
            else if Ascii.eqb e "f"%char
                 then continue (ascii_of_nat 12) (scan_string r1)
            else if Ascii.eqb e "n"%char
                 then continue newline (scan_string r1)
            else if Ascii.eqb e "r"%char
                 then continue (ascii_of_nat 13) (scan_string r1)
            else if Ascii.eqb e "t"%char then continue tab (scan_string r1)
            else if Ascii.eqb e "u"%char then
              match r1 with
              | String h1 (String h2 (String h3 (String h4 r2))) =>
                  match hex_value h1, hex_value h2,
                        hex_value h3, hex_value h4 with
                  | Some 0, Some 0, Some a, Some b =>
                      continue (ascii_of_nat (16 * a + b)) (scan_string r2)
                  | _, _, _, _ => None
                  end
              | _ => None
              end
            else None
        | "" => None
        end
      else if (nat_of_ascii c <? 32)%nat then None
      else match scan_string r with
           | Some (t, r') => Some (String c t, r')
           | None => None
           end
  end.

(** The digits at the head of [s]: their value and the rest. *)
Fixpoint scan_digits (s : string) (acc : Z) : Z * string :=
  match s with
  | String c r =>
      if is_digit c then scan_digits r (10 * acc + digit_value c)%Z
      else (acc, s)
  | "" => (acc, "")
  end.

(** An integer literal: no leading zero before another digit. *)
Definition scan_int (s : string) : option (Z * string) :=
  let unsigned (s : string) :=
    match s with
    | String c r =>
        if Ascii.eqb c "0"%char then Some (0%Z, r)
        else if is_digit c then Some (scan_digits s 0%Z)
        else None
    | "" => None
    end in
  match s with
  | String "-"%char r =>
      match unsigned r with
      | Some (z, r') => Some ((- z)%Z, r')
      | None => None
      end
  | _ => unsigned s
  end.

Fixpoint scan_value (fuel : nat) (s : string) : option (pyval * string) :=
  match fuel with
  | O => None
  | S fuel' =>
      match s with
      | "" => None
      | String c r =>
          if Ascii.eqb c dq then
            match scan_string r with
            | Some (t, r') => Some (PStr t, r')
            | None => None
            end
          else if Ascii.eqb c "{"%char then
            match skip_ws r with
            | String "}"%char r' => Some (PDict [], r')
            | r' => scan_members fuel' r' []
            end
          else if Ascii.eqb c "["%char then
            match skip_ws r with
            | String "]"%char r' => Some (PList [], r')
            | r' => scan_items fuel' r' []
            end
          else
            match after_prefix "null" s, after_prefix "true" s,
                  after_prefix "false" s with
            | Some r', _, _ => Some (PNone, r')
            | _, Some r', _ => Some (PBool true, r')
            | _, _, Some r' => Some (PBool false, r')
            | None, None, None =>
                match scan_int s with
                | Some (z, r') => Some (PInt z, r')
                | None => None
                end
            end
      end
  end

with scan_members (fuel : nat) (s : string) (acc : dict)
  : option (pyval * string) :=
  match fuel with
  | O => None
  | S fuel' =>
      match s with
      | String c r =>
          if Ascii.eqb c dq then
            match scan_string r with
            | Some (k, r1) =>
                match skip_ws r1 with
                | String ":"%char r2 =>
                    match scan_value fuel' (skip_ws r2) with
                    | Some (v, r3) =>
                        let acc' := dict_set acc k v in
                        match skip_ws r3 with
                        | String ","%char r4 =>
                            scan_members fuel' (skip_ws r4) acc'
                        | String "}"%char r4 => Some (PDict acc', r4)
                        | _ => None
                        end
                    | None => None
                    end
                | _ => None
                end
            | None => None
            end
          else None
      | "" => None
      end
  end

with scan_items (fuel : nat) (s : string) (acc : list pyval)
  : option (pyval * string) :=
  match fuel with
  | O => None
  | S fuel' =>
      match scan_value fuel' s with
      | Some (v, r1) =>
          match skip_ws r1 with
          | String ","%char r2 =>
              scan_items fuel' (skip_ws r2) (app acc [v])
          | String "]"%char r2 => Some (PList (app acc [v]), r2)
          | _ => None
          end
      | None => None
      end
  end.

Definition json_loads_ref (s : string) : result pyval :=
  match scan_value (S (String.length s)) (skip_ws s) with
  | Some (v, r) =>
      match skip_ws r with
      | "" => Ok v
      | _ => Raise ValueError
      end
  | None => Raise ValueError
  end.

(** The [type] field of a decoded request, if it has one. *)
Definition type_field (data : pyval) : option pyval :=
  match data with
  | PDict d => dict_lookup d "type"
  | _ => None
  end.

(** ** Scenarios *)

Definition param (code : string) : jedi.Param := {| jedi.get_code := code |}.

(** The signature [(a, b=5)] *)
Definition signature_a_b5 : jedi.CallDef :=
  {| jedi.params := [param "a"; param "b=5"] |}.

(** The signature [(a, b=5, *args, self, **kwargs)] *)
Definition signature_mixed : jedi.CallDef :=
  {| jedi.params :=
       [param "a"; param "b=5"; param "*args"; param "self";
        param "**kwargs"] |}.

(** The signature [(self)] *)
Definition signature_self : jedi.CallDef :=
  {| jedi.params := [param "self"] |}.

(** A session whose signature and completion queries answer, and whose
    definition and usage queries report that nothing was found. *)
Definition session (signature : option jedi.CallDef)
    (candidates : list jedi.Completion) : jedi.Script :=
  {| jedi.call_signatures := Ok signature;
     jedi.completions := Ok candidates;
     jedi.goto_assignments := Raise NotFoundError;
     jedi.usages := Raise NotFoundError |}.

Definition facade_on (signature : option jedi.CallDef)
    (candidates : list jedi.Completion) : JediFacade :=
  {| script := session signature candidates |}.

Definition completion_path : jedi.Completion :=
  {| jedi.name := "path"; jedi.type := "module" |}.

(** An engine with no active call signature and the one completion
    [path] of kind [module], whatever the source and the cursor. *)
Definition engine_path (source : pyval) (line column : Z)
    (path encoding : pyval) : result jedi.Script :=
  Ok (session None [completion_path]).

Definition quoted (s : string) : string := String dq (s ++ String dq "").

(** The autocomplete request of the protocol's example, as [readline]
    returns it. *)
Definition request_line : string :=
  "{" ++ quoted "type" ++ ":" ++ quoted "autocomplete" ++ ","
      ++ quoted "uuid" ++ ":" ++ quoted "1" ++ ","
      ++ quoted "source" ++ ":" ++ quoted "import os\nos." ++ ","
      ++ quoted "line" ++ ":2," ++ quoted "offset" ++ ":3,"
      ++ quoted "filename" ++ ":" ++ quoted "" ++ ","
      ++ quoted "encoding" ++ ":" ++ quoted "utf-8" ++ "}" ++ nl.

(** The request once decoded. *)
Definition request_data : pyval :=
  PDict [("type", PStr "autocomplete"); ("uuid", PStr "1");
         ("source", PStr ("import os" ++ nl ++ "os."));
         ("line", PInt 2); ("offset", PInt 3);
         ("filename", PStr ""); ("encoding", PStr "utf-8")].

Definition stdout0 : stdout_t := {| written := ""; reader_gone := false |}.
Definition world0 : world := {| out := stdout0; log := [] |}.

(** The list [get_function_parameters] builds for one parameter, or
    nothing when the parameter is skipped. *)
Definition kept (param : jedi.Param) : list (list string) :=
  let cleaned_param := strip (jedi.get_code param) in
  if contains "*"%char cleaned_param || (cleaned_param =? "self")
  then []
  else [map strip (str_split "="%char cleaned_param)].

(** The completion entry of a parameter given as [[name; default]]. *)
Definition default_entry (parameter : list string) : string * string :=
  match parameter with
  | [n; v] => (n ++ String tab "" ++ v, n ++ "=${1:" ++ v ++ "}")
  | _ => ("", "")
  end.

(** ** Start-up: the search path

    The loop of the main program over [options.extra_folders]:
<<
    for extra_folder in options.extra_folders:
        if extra_folder not in sys.path:
            sys.path.insert(0, extra_folder)
>>
    [sys_path] is [sys.path] before the loop, the result is [sys.path]
    after it. *)
Definition add_extra_folders (extra_folders sys_path : list string)
  : list string :=
  fold_left
    (fun path extra_folder =>
       if existsb (String.eqb extra_folder) path
       then path
       else extra_folder :: path)
    extra_folders sys_path.

(** The signature [(self, b=5, c = 7)] *)
Definition signature_defaults : jedi.CallDef :=
  {| jedi.params := [param "self"; param "b=5"; param "c = 7"] |}.

(** A request for an action the facade does not have, with its
    correlation token, and a request for a known action without one. *)
Definition request_rename : string :=
  "{" ++ quoted "type" ++ ": " ++ quoted "rename" ++ ", "
      ++ quoted "uuid" ++ ": " ++ quoted "7" ++ "}" ++ nl.

Definition request_without_uuid : string :=
  "{" ++ quoted "type" ++ ": " ++ quoted "goto" ++ "}" ++ nl.

(** The lines [iter(sys.stdin.readline, '')] yields: those before the
    first empty text. *)
Fixpoint lines_read (stdin : list string) : list string :=
  match stdin with
  | [] => []
  | line :: rest => if line =? "" then [] else line :: lines_read rest
  end.

(** The placeholder of [_complete_call_assigments] for a parameter given
    as [[name; default]], at position [index] of the enumeration. *)
Definition default_placeholder (index : nat) (parameter : list string)
  : string :=
  match parameter with
  | [n; v] => n ++ "=${" ++ str_of_nat (index + 1) ++ ":" ++ v ++ "}"
  | _ => ""
  end.

(** The placeholders of the parameters from position [index] on. *)
Fixpoint default_placeholders (index : nat)
    (parameters : list (list string)) : list string :=
  match parameters with
  | [] => []
  | p :: rest =>
      default_placeholder index p :: default_placeholders (S index) rest
  end.

(** ** Text *)

Lemma rstrip_idempotent (s : string) : rstrip (rstrip s) = rstrip s.
Proof.
  induction s as [|c s IH]; simpl; [reflexivity|].
  destruct (is_space c && (rstrip s =? "")) eqn:E; simpl; [reflexivity|].
  now rewrite IH, E.
Qed.

Lemma lstrip_fixed (c : ascii) (r : string) :
  is_space c = false -> lstrip (String c r) = String c r.
Proof. intros H. simpl. now rewrite H. Qed.

Lemma lstrip_head (s : string) :
  lstrip s = "" \/
  exists c r, lstrip s = String c r /\ is_space c = false.
Proof.
  induction s as [|c s IH]; simpl; [now left|].
  destruct (is_space c) eqn:E; [assumption|].
  right. now exists c, s.
Qed.

(** [strip] does nothing to text that is already stripped. *)
Lemma strip_idempotent (s : string) : strip (strip s) = strip s.
Proof.
  unfold strip.
  destruct (lstrip_head s) as [-> | (c & r & -> & Hc)]; [reflexivity|].
  assert (E : rstrip (String c r) = String c (rstrip r)).
  { simpl. now rewrite Hc. }
  rewrite E, (lstrip_fixed _ _ Hc), <- E. apply rstrip_idempotent.
Qed.

Lemma length_append (a b : string) :
  String.length (a ++ b) = String.length a + String.length b.
Proof. induction a as [|c a IH]; simpl; [reflexivity | now rewrite IH]. Qed.

Lemma append_assoc (a b c : string) : (a ++ b) ++ c = a ++ (b ++ c).
Proof. induction a as [|x a IH]; simpl; [reflexivity | now rewrite IH]. Qed.

Lemma append_empty (a : string) : a ++ "" = a.
Proof. induction a as [|x a IH]; simpl; [reflexivity | now rewrite IH]. Qed.

Lemma drop_append (a b : string) : drop (String.length a) (a ++ b) = b.
Proof.
  induction a as [|c a IH]; simpl; [now destruct b | assumption].
Qed.

Lemma endswith_nl_snoc (s : string) (c : ascii) :
  endswith_nl (s ++ String c "") = Ascii.eqb c newline.
Proof.
  induction s as [|d s IH]; simpl; [reflexivity|].
  destruct (s ++ String c "") eqn:E; [now destruct s | exact IH].
Qed.

Lemma endswith_nl_false (s : string) :
  endswith_nl s = false -> trailing_newlines s = 0.
Proof.
  induction s as [|c s IH]; simpl; [reflexivity|].
  destruct s as [|d s].
  - intros ->. reflexivity.
  - intros H. rewrite (IH H). simpl. now rewrite andb_false_r.
Qed.

Lemma endswith_nl_true (s : string) :
  endswith_nl s = true -> 1 <= trailing_newlines s.
Proof.
  induction s as [|c s IH]; simpl; [discriminate|].
  destruct s as [|d s].
  - intros ->. simpl. lia.
  - intros H. specialize (IH H).
    destruct (Ascii.eqb c newline
              && (trailing_newlines (String d s)
                  =? String.length (String d s))%nat);
      simpl in *; lia.
Qed.

Lemma trailing_newlines_snoc (s : string) :
  trailing_newlines (s ++ nl) = S (trailing_newlines s).
Proof.
  induction s as [|c s IH]; [reflexivity|].
  cbn [append trailing_newlines]. rewrite IH, length_append.
  simpl String.length.
  replace (String.length s + 1) with (S (String.length s)) by lia.
  change (S (trailing_newlines s) =? S (String.length s))%nat
    with (trailing_newlines s =? String.length s)%nat.
  now destruct (Ascii.eqb c newline
                && (trailing_newlines s =? String.length s)%nat).
Qed.

Lemma contains_false_endswith (s : string) :
  contains newline s = false -> endswith_nl s = false.
Proof.
  induction s as [|c s IH]; simpl; [reflexivity|].
  intros H. apply orb_false_iff in H as [Hc Hs].
  destruct s; [now rewrite Ascii.eqb_sym | now apply IH].
Qed.

Lemma string_of_uint_no_newline (d : Decimal.uint) :
  contains newline (NilEmpty.string_of_uint d) = false.
Proof. induction d; simpl; auto. Qed.

Lemma str_of_Z_no_newline (z : Z) : endswith_nl (str_of_Z z) = false.
Proof.
  apply contains_false_endswith. unfold str_of_Z.
  destruct (Z.to_int z); simpl; apply string_of_uint_no_newline.
Qed.

(** ** Parameter extraction and the two loops over parameters *)

Lemma get_function_parameters_flat_map (cd : jedi.CallDef) :
  get_function_parameters (Some cd) = flat_map kept (jedi.params cd).
Proof.
  unfold get_function_parameters.
  enough (H : forall l acc,
             fold_left
               (fun params param =>
                  let cleaned_param := strip (jedi.get_code param) in
                  if contains "*"%char cleaned_param
                     || (cleaned_param =? "self")
                  then params
                  else app params
                         [map strip (str_split "="%char cleaned_param)])
               l acc = app acc (flat_map kept l)).
  { exact (H (jedi.params cd) []). }
  induction l as [|p l IH]; intros acc; simpl.
  - now rewrite app_nil_r.
  - rewrite IH. unfold kept at 2.
    destruct (contains "*"%char (strip (jedi.get_code p))
              || (strip (jedi.get_code p) =? "self")); simpl;
      [reflexivity | now rewrite <- app_assoc].
Qed.

Lemma str_split_without_separator (sep : ascii) (s : string) :
  contains sep s = false -> str_split sep s = [s].
Proof.
  induction s as [|c s IH]; simpl; intros H; [reflexivity|].
  apply orb_false_iff in H as [Hc Hs].
  rewrite Ascii.eqb_sym, Hc. now rewrite (IH Hs).
Qed.

(** The unpacking statement either binds both names or raises
    [ValueError]: its handler for [IndexError] never runs. *)
Lemma name_and_value_cases (parameter : list string) :
  (exists n v, parameter = [n; v] /\
               name_and_value parameter = Ok (n, Some v))
  \/ (List.length parameter <> 2 /\
      name_and_value parameter = Raise ValueError).
Proof.
  destruct parameter as [|n [|v [|x r]]]; simpl.
  - right. split; [discriminate | reflexivity].
  - right. split; [discriminate | reflexivity].
  - left. exists n, v. split; reflexivity.
  - right. split; [discriminate | reflexivity].
Qed.

Lemma parameters_loop_raises (parameters : list (list string)) :
  Exists (fun p => List.length p <> 2) parameters ->
  forall completions,
    parameters_loop parameters completions = Raise ValueError.
Proof.
  induction parameters as [|p ps IH]; intros HE completions.
  - inversion HE.
  - simpl. destruct (name_and_value_cases p) as [(n & v & -> & E) | [Hl E]].
    + rewrite E. simpl. apply IH.
      inversion HE as [? ? Hp | ? ? Hps]; subst; [now elim Hp | assumption].
    + now rewrite E.
Qed.

Lemma call_assigments_loop_raises (complete_all : bool)
    (parameters : list (list string)) :
  Exists (fun p => List.length p <> 2) parameters ->
  forall index completions,
    call_assigments_loop complete_all parameters index completions
    = Raise ValueError.
Proof.
  induction parameters as [|p ps IH]; intros HE index completions.
  - inversion HE.
  - simpl. destruct (name_and_value_cases p) as [(n & v & -> & E) | [Hl E]].
    + rewrite E. simpl.
      assert (Hps : Exists (fun p => List.length p <> 2) ps).
      { inversion HE as [? ? Hp | ? ? Hps]; subst;
          [now elim Hp | assumption]. }
      destruct complete_all; now apply IH.
    + now rewrite E.
Qed.

Lemma parameters_loop_defaults (parameters : list (list string)) :
  Forall (fun p => List.length p = 2) parameters ->
  forall completions,
    parameters_loop parameters completions
    = Ok (app completions (map default_entry parameters)).
Proof.
  induction 1 as [|p ps Hp _ IH]; intros completions; simpl.
  - now rewrite app_nil_r.
  - destruct p as [|n [|v [|x r]]]; try discriminate Hp.
    simpl. rewrite IH. now rewrite <- app_assoc.
Qed.

Lemma or_nil_id {A} (l : list A) : or_nil l = l.
Proof. now destruct l. Qed.

(** ** The facade operations *)

(** A signature with a kept parameter that has no ['='] makes both
    operations raise [ValueError]. *)
Lemma bare_parameter_is_fatal (cd : jedi.CallDef) (p : jedi.Param) :
  In p (jedi.params cd) ->
  contains "*"%char (strip (jedi.get_code p)) = false ->
  (strip (jedi.get_code p) =? "self") = false ->
  contains "="%char (strip (jedi.get_code p)) = false ->
  In [strip (jedi.get_code p)] (get_function_parameters (Some cd))
  /\ Exists (fun x => List.length x <> 2)
       (get_function_parameters (Some cd)).
Proof.
  intros Hin Hstar Hself Heq.
  assert (Hk : kept p = [[strip (jedi.get_code p)]]).
  { unfold kept. rewrite Hstar, Hself. simpl.
    rewrite (str_split_without_separator _ _ Heq). simpl.
    now rewrite strip_idempotent. }
  assert (Hin' : In [strip (jedi.get_code p)]
                   (get_function_parameters (Some cd))).
  { rewrite get_function_parameters_flat_map. apply in_flat_map.
    exists p. split; [assumption|]. rewrite Hk. now left. }
  split; [assumption|].
  apply Exists_exists. eexists. split; [exact Hin'|]. discriminate.
Qed.

(** C3.  For the signature [(a, b=5)] the funcargs operation raises
    [ValueError] whatever the toggle is, and so for each of the values
    [required], [all] and the empty text: the parameter [a] is extracted
    as a one-element list, which the two-target unpacking rejects.  The
    snippets the specification gives for the three toggles are never
    produced. *)
Theorem funcargs_a_b5_raises :
  forall (toggle : string) (candidates : list jedi.Completion),
    get_funcargs toggle (facade_on (Some signature_a_b5) candidates)
    = Raise ValueError.
Proof. intros toggle candidates. reflexivity. Qed.

(** C4.  For the signature [(a, b=5, *args, self, **kwargs)] the
    extraction keeps [a] and [b=5] in declaration order and drops the
    three others, but what it returns for [a] is the one-element list
    [["a"]], not a pair of the name and [None]: the callers' own reading
    of the elements as (name, value) fails on it. *)
Theorem get_function_parameters_mixed :
  get_function_parameters (Some signature_mixed) = [["a"]; ["b"; "5"]]
  /\ map name_and_value (get_function_parameters (Some signature_mixed))
     = [Raise ValueError; Ok ("b", Some "5")].
Proof. split; reflexivity. Qed.

(** C5.  With the signature [(a)] active and the one completion [path],
    the autocomplete operation raises [ValueError] instead of returning
    the entry of [a] followed by the entry of [path]. *)
Theorem get_autocomplete_required_parameter_raises :
  get_autocomplete
    (facade_on (Some {| jedi.params := [param "a"] |}) [completion_path])
  = Raise ValueError.
Proof. reflexivity. Qed.

(** What does hold of autocomplete: whenever every extracted parameter
    carries a default, the result is the parameter entries followed by
    the formatted completions, both in the engine's order. *)
Lemma get_autocomplete_concat (self : JediFacade)
    (signature : option jedi.CallDef) (candidates : list jedi.Completion) :
  jedi.call_signatures (script self) = Ok signature ->
  jedi.completions (script self) = Ok candidates ->
  Forall (fun p => List.length p = 2) (get_function_parameters signature) ->
  get_autocomplete self
  = Ok (app (map default_entry (get_function_parameters signature))
            (map format_completion candidates)).
Proof.
  intros Hs Hc Hall. unfold get_autocomplete, _parameters_for_completion,
    _completion.
  rewrite Hs, Hc. simpl.
  rewrite (parameters_loop_defaults _ Hall). simpl.
  now rewrite !or_nil_id.
Qed.

(** And the empty case: no active signature, no completion, no failure. *)
Lemma get_autocomplete_empty (self : JediFacade) :
  jedi.call_signatures (script self) = Ok None ->
  jedi.completions (script self) = Ok [] ->
  get_autocomplete self = Ok [].
Proof.
  intros Hs Hc. unfold get_autocomplete, _parameters_for_completion,
    _completion.
  now rewrite Hs, Hc.
Qed.

(** C10, as it is stated, at the signature [(self)]: the parameter has
    no default value, yet nothing is extracted for it and both
    operations return. *)
Lemma self_parameter_does_not_raise :
  In (param "self") (jedi.params signature_self)
  /\ contains "="%char (strip (jedi.get_code (param "self"))) = false
  /\ get_function_parameters (Some signature_self) = []
  /\ get_autocomplete (facade_on (Some signature_self) []) = Ok []
  /\ get_funcargs "required" (facade_on (Some signature_self) []) = Ok "".
Proof. repeat split; try reflexivity. now left. Qed.

(** C10, amended.  For every active call signature with a parameter
    that has no default value and is not skipped by the extraction (its
    text holds no star and is not [self]): the extraction yields a
    one-element list for that parameter; unpacking that list into two
    names raises [ValueError]; the handler, which is for [IndexError],
    does not catch it; and both the autocomplete and the funcargs
    operations raise [ValueError], whatever the toggle. *)
Theorem required_parameter_raises_ValueError :
  forall (self : JediFacade) (cd : jedi.CallDef) (p : jedi.Param)
         (toggle : string),
    jedi.call_signatures (script self) = Ok (Some cd) ->
    In p (jedi.params cd) ->
    contains "*"%char (strip (jedi.get_code p)) = false ->
    (strip (jedi.get_code p) =? "self") = false ->
    contains "="%char (strip (jedi.get_code p)) = false ->
    In [strip (jedi.get_code p)] (get_function_parameters (Some cd))
    /\ unpack2 [strip (jedi.get_code p)] = Raise ValueError
    /\ exn_eqb IndexError ValueError = false
    /\ name_and_value [strip (jedi.get_code p)] = Raise ValueError
    /\ get_autocomplete self = Raise ValueError
    /\ get_funcargs toggle self = Raise ValueError.
Proof.
  intros self cd p toggle Hs Hin Hstar Hself Heq.
  destruct (bare_parameter_is_fatal cd p Hin Hstar Hself Heq) as [Hl HE].
  repeat split; try reflexivity; try assumption.
  - unfold get_autocomplete, _parameters_for_completion. rewrite Hs. simpl.
    now rewrite (parameters_loop_raises _ HE).
  - unfold get_funcargs, _complete_call_assigments. rewrite Hs. simpl.
    now rewrite (call_assigments_loop_raises _ _ HE).
Qed.

Lemma required_parameter_raises_ValueError_witness :
  get_autocomplete (facade_on (Some signature_a_b5) [completion_path])
  = Raise ValueError
  /\ get_funcargs "all" (facade_on (Some signature_a_b5) [completion_path])
     = Raise ValueError.
Proof.
  pose proof
    (required_parameter_raises_ValueError
       (facade_on (Some signature_a_b5) [completion_path])
       signature_a_b5 (param "a") "all"
       eq_refl (or_introl eq_refl) eq_refl eq_refl eq_refl) as H.
  split; apply H.
Defined.

(** C6.  When the engine's definition query raises [NotFoundError], the
    goto operation returns [None]: no exception leaves it, and the
    handler of the daemon loop, run on this outcome, logs nothing. *)
Theorem get_goto_not_found :
  forall (self : JediFacade) (l : list log_record),
    jedi.goto_assignments (script self) = Raise NotFoundError ->
    get_goto self = Ok None
    /\ guarded (get_goto self) l = Continue l.
Proof.
  intros self l H. unfold get_goto, _goto. rewrite H. split; reflexivity.
Qed.

Lemma get_goto_not_found_witness :
  get_goto (facade_on None []) = Ok None
  /\ guarded (get_goto (facade_on None [])) [] = Continue [].
Proof. exact (get_goto_not_found (facade_on None []) [] eq_refl). Defined.

(** C7.  When the engine's usage query raises [NotFoundError], the
    usages operation does not catch it: the exception leaves the
    operation, the result is not an empty list, and the handler of the
    daemon loop, run on this outcome, logs the failure. *)
Theorem get_usages_not_found :
  forall (self : JediFacade) (l : list log_record),
    jedi.usages (script self) = Raise NotFoundError ->
    get_usages self = Raise NotFoundError
    /\ get_usages self <> Ok []
    /\ guarded (get_usages self) l
       = Continue (app l [LogException "failed to process line"
                            NotFoundError]).
Proof.
  intros self l H. unfold get_usages, _usages. rewrite H.
  repeat split. discriminate.
Qed.

Lemma get_usages_not_found_witness :
  get_usages (facade_on None []) = Raise NotFoundError
  /\ get_usages (facade_on None []) <> Ok []
  /\ guarded (get_usages (facade_on None [])) []
     = Continue [LogException "failed to process line" NotFoundError].
Proof. exact (get_usages_not_found (facade_on None []) [] eq_refl). Defined.

(** Every exception of the engine leaves the usages operation as it is. *)
Lemma get_usages_propagates (self : JediFacade) (e : exn) :
  jedi.usages (script self) = Raise e -> get_usages self = Raise e.
Proof. intros H. unfold get_usages, _usages. now rewrite H. Qed.

(** ** The output writer *)

Lemma emitted_stdout_write (o : stdout_t) (s : string) :
  emitted o (stdout_write s o) = s.
Proof. unfold emitted, stdout_write. simpl. apply drop_append. Qed.

(** What [write] leaves on the stream, flush or no flush. *)
Lemma write_emits (data : pyval) (o : stdout_t) (text : string) :
  text_of data = Ok text ->
  emitted o (snd (write data o))
  = text ++ (if endswith_nl text then "" else nl).
Proof.
  intros H. unfold write. rewrite H. simpl.
  destruct (endswith_nl text); simpl.
  - now rewrite emitted_stdout_write, append_empty.
  - unfold emitted, stdout_write. simpl.
    now rewrite append_assoc, drop_append.
Qed.

(** The serialization of a value other than a float does not end with a
    newline. *)
Lemma json_dumps_last (v : pyval) (s : string) :
  (forall f, v <> PFloat f) ->
  json_dumps v = Ok s -> endswith_nl s = false.
Proof.
  intros Hf H. destruct v as [|[|]|z|f|t|l|d|a]; simpl in H.
  - now injection H as <-.
  - now injection H as <-.
  - now injection H as <-.
  - injection H as <-. apply str_of_Z_no_newline.
  - now elim (Hf f).
  - injection H as <-.
    exact (endswith_nl_snoc (String dq (json_chars t)) dq).
  - match type of H with
    | bind ?x _ = _ => destruct x as [items|e]; [|discriminate]
    end.
    simpl in H. injection H as <-.
    exact (endswith_nl_snoc
             (String "["%char (String.concat ", " items)) "]"%char).
  - match type of H with
    | bind ?x _ = _ => destruct x as [items|e]; [|discriminate]
    end.
    simpl in H. injection H as <-.
    exact (endswith_nl_snoc
             (String "{"%char (String.concat ", " items)) "}"%char).
  - discriminate.
Qed.

(** C9, as it is stated, at a text that ends with two newlines: the
    write succeeds and what is emitted ends with two newlines, not
    one. *)
Lemma write_keeps_two_newlines :
  fst (write (PStr ("ok" ++ nl ++ nl)) stdout0) = Ok tt
  /\ emitted stdout0 (snd (write (PStr ("ok" ++ nl ++ nl)) stdout0))
     = "ok" ++ nl ++ nl
  /\ trailing_newlines
       (emitted stdout0 (snd (write (PStr ("ok" ++ nl ++ nl)) stdout0)))
     = 2.
Proof. repeat split. Qed.

(** C9, amended.  For every value given to the writer, what is emitted
    is the text of the value (the text itself, or its JSON
    serialization) followed by a newline only when the text does not end
    with one.  So the emitted text always ends with a newline; it ends
    with exactly one when the text ends with at most one, which is the
    case of every serialization of a value other than a float; and a
    text that ends with more newlines keeps them all. *)
Theorem write_trailing_newlines :
  forall (data : pyval) (o : stdout_t) (text : string),
    text_of data = Ok text ->
    emitted o (snd (write data o))
    = text ++ (if endswith_nl text then "" else nl)
    /\ endswith_nl (emitted o (snd (write data o))) = true
    /\ trailing_newlines (emitted o (snd (write data o)))
       = Nat.max 1 (trailing_newlines text)
    /\ (trailing_newlines text <= 1 ->
        trailing_newlines (emitted o (snd (write data o))) = 1)
    /\ ((forall s, data <> PStr s) -> (forall f, data <> PFloat f) ->
        trailing_newlines (emitted o (snd (write data o))) = 1).
Proof.
  intros data o text H.
  rewrite (write_emits data o text H).
  assert (Hmax : trailing_newlines
                   (text ++ (if endswith_nl text then "" else nl))
                 = Nat.max 1 (trailing_newlines text)).
  { destruct (endswith_nl text) eqn:E.
    - rewrite append_empty. pose proof (endswith_nl_true _ E). lia.
    - rewrite trailing_newlines_snoc, (endswith_nl_false _ E).
      reflexivity. }
  split; [reflexivity|]. split; [|split; [exact Hmax|split]].
  - destruct (endswith_nl text) eqn:E.
    + now rewrite append_empty.
    + unfold nl. now rewrite endswith_nl_snoc.
  - intros Hle. rewrite Hmax. lia.
  - intros Hs Hf. rewrite Hmax.
    assert (E : endswith_nl text = false).
    { apply (json_dumps_last data text Hf).
      destruct data; try exact H. now elim (Hs s). }
    now rewrite (endswith_nl_false _ E).
Qed.

Lemma write_trailing_newlines_witness :
  trailing_newlines
    (emitted stdout0 (snd (write (PList [PStr "path"; PInt 3]) stdout0)))
  = 1.
Proof.
  apply (write_trailing_newlines (PList [PStr "path"; PInt 3]) stdout0
           _ eq_refl); discriminate.
Defined.

(** ** The request dispatcher *)

Lemma is_Exception_iff (e : exn) : is_Exception e = true <-> e <> SystemExit.
Proof. destruct e; simpl; split; congruence. Qed.

(** A key that is no parameter of [__init__] is an unexpected keyword
    argument. *)
Lemma unexpected_keyword (d : dict) (k : string) (v : pyval) :
  dict_lookup d k = Some v ->
  existsb (String.eqb k) init_parameters = false ->
  existsb (fun kv => negb (existsb (String.eqb (fst kv)) init_parameters)) d
  = true.
Proof.
  intros Hl Hk. induction d as [|[k' v'] d IH]; simpl in *; [discriminate|].
  destruct (k' =? k) eqn:E.
  - apply String.eqb_eq in E. subst k'. cbn [fst]. cbn in Hk |- *.
    now rewrite Hk.
  - rewrite (IH Hl). apply orb_true_r.
Qed.

(** Closes a goal [exists e, c = Raise e /\ (_ \/ _ /\ In e _)] once [c]
    has been reduced to [Raise e]. *)
Ltac raised_after_decoding e Hd :=
  exists e; split; [reflexivity|]; right; split; [exact Hd | simpl; tauto].

Section DaemonFacts.

Variable json_loads : string -> result pyval.
Variable jedi_Script :
  pyval -> Z -> Z -> pyval -> pyval -> result jedi.Script.

(** A request that carries a [type] cannot be turned into a facade:
    [type] is passed to [__init__], which has no such parameter. *)
Lemma JediFacade_kwargs_rejects_type (d : dict) (v : pyval) :
  dict_lookup d "type" = Some v ->
  JediFacade_kwargs jedi_Script (PDict d) = Raise TypeError.
Proof.
  intros H. unfold JediFacade_kwargs.
  now rewrite (unexpected_keyword d "type" v H eq_refl).
Qed.

(** No line gets as far as the call of [write]: either the decoder
    raises, or one of four exceptions is raised after it. *)
Lemma build_out_data_raises (line : string) :
  exists e,
    build_out_data json_loads jedi_Script line = Raise e
    /\ (json_loads (strip line) = Raise e
        \/ (exists data, json_loads (strip line) = Ok data)
           /\ In e [AttributeError; AssertionError; KeyError; TypeError]).
Proof.
  unfold build_out_data.
  destruct (json_loads (strip line)) as [data|e] eqn:Hj; cbn [bind].
  2: { exists e. split; [reflexivity | now left]. }
  assert (Hd : exists data0, Ok data = Ok data0) by now exists data.
  destruct data as [| | | | |l|d|a]; cbn [bind data_get];
    try raised_after_decoding AttributeError Hd.
  destruct (dict_lookup d "type") as [v|] eqn:Ht;
    cbn [bind option_default is_truthy py_assert].
  - destruct (is_truthy v); cbn [bind py_assert data_item].
    + destruct (dict_lookup d "uuid") as [u|]; cbn [bind].
      * rewrite (JediFacade_kwargs_rejects_type d v Ht). cbn [bind].
        raised_after_decoding TypeError Hd.
      * raised_after_decoding KeyError Hd.
    + raised_after_decoding AssertionError Hd.
  - raised_after_decoding AssertionError Hd.
Qed.

(** So [process_line] raises on every line and leaves the stream as it
    was. *)
Lemma process_line_raises (line : string) (o : stdout_t) :
  exists e, process_line json_loads jedi_Script line o = (Raise e, o).
Proof.
  destruct (build_out_data_raises line) as (e & H & _).
  exists e. unfold process_line. now rewrite H.
Qed.

(** A request without a truthy [type] fails the assertion, or has no
    [get] method to begin with. *)
Lemma build_out_data_without_type (line : string) (data : pyval) :
  json_loads (strip line) = Ok data ->
  (type_field data = None
   \/ exists v, type_field data = Some v /\ is_truthy v = false) ->
  build_out_data json_loads jedi_Script line = Raise AssertionError
  \/ build_out_data json_loads jedi_Script line = Raise AttributeError.
Proof.
  intros Hj Ht. unfold build_out_data. rewrite Hj. simpl.
  destruct data as [| | | | |l|d|a]; simpl; try (now right).
  left. simpl in Ht. destruct Ht as [-> | (v & -> & Hv)]; simpl.
  - reflexivity.
  - now rewrite Hv.
Qed.

(** ** The daemon loop *)

(** One failing line: the loop logs and goes on with the rest. *)
Lemma daemon_loop_failure (line : string) (rest : list string)
    (w : world) (e : exn) (o : stdout_t) :
  line <> "" ->
  process_line json_loads jedi_Script line (out w) = (Raise e, o) ->
  e <> SystemExit ->
  daemon_loop json_loads jedi_Script (line :: rest) w
  = daemon_loop json_loads jedi_Script rest
      {| out := o;
         log := app (log w) [LogException "failed to process line" e] |}.
Proof.
  intros Hl Hp He. simpl.
  destruct (line =? "") eqn:E; [now apply String.eqb_eq in E|].
  simpl. rewrite Hp. simpl.
  now rewrite (proj2 (is_Exception_iff e) He).
Qed.

(** Lines that the loop gets through can be split off the input. *)
Lemma daemon_loop_app (before rest : list string) :
  Forall (fun l => l <> "") before ->
  forall w w1,
    daemon_loop json_loads jedi_Script before w = (EndOfInput, w1) ->
    daemon_loop json_loads jedi_Script (app before rest) w
    = daemon_loop json_loads jedi_Script rest w1.
Proof.
  induction 1 as [|line before Hl _ IH]; intros w w1 Hrun.
  - simpl in Hrun. injection Hrun as <-. reflexivity.
  - simpl in Hrun |- *.
    destruct (line =? "") eqn:E; [now apply String.eqb_eq in E|].
    simpl in Hrun |- *.
    destruct (process_line json_loads jedi_Script line (out w))
      as [r o].
    destruct (guarded r (log w)) as [l|e]; [|discriminate].
    now apply IH.
Qed.

(** With a decoder that does not end the process, the daemon answers no
    request at all: it reaches the end of its input having written
    nothing, every line before the sentinel logged as a failure. *)
Lemma daemon_loop_never_writes :
  (forall s, json_loads s <> Raise SystemExit) ->
  forall stdin w,
    exists l,
      daemon_loop json_loads jedi_Script stdin w
      = (EndOfInput, {| out := out w; log := l |}).
Proof.
  intros Hdec. induction stdin as [|line rest IH]; intros w.
  - exists (log w). now destruct w.
  - simpl. destruct (line =? "") eqn:E; [exists (log w); now destruct w|].
    simpl. unfold process_line.
    destruct (build_out_data_raises line) as (e & -> & He). simpl.
    assert (Hexc : is_Exception e = true).
    { apply is_Exception_iff. destruct He as [He | [_ He]].
      - intros ->. exact (Hdec _ He).
      - simpl in He. intuition (subst; discriminate). }
    rewrite Hexc.
    destruct (IH {| out := out w;
                    log := app (log w)
                             [LogException "failed to process line" e] |})
      as [l Hl].
    exists l. exact Hl.
Qed.

(** C2.  Wherever a line stands in the input, if [process_line] raises
    on it an exception other than [SystemExit] (the end of the process
    on a closed output), the loop logs the failure and goes on: the
    run over the whole input is the run over the lines that follow,
    from the world the failure left; the next line is handed to
    [process_line] on the stream the failing line left. *)
Theorem daemon_loop_isolates_failure :
  forall (before : list string) (line next : string) (rest : list string)
         (w w1 : world) (e : exn) (o : stdout_t),
    Forall (fun l => l <> "") before ->
    daemon_loop json_loads jedi_Script before w = (EndOfInput, w1) ->
    line <> "" ->
    next <> "" ->
    process_line json_loads jedi_Script line (out w1) = (Raise e, o) ->
    e <> SystemExit ->
    let w2 :=
      {| out := o;
         log := app (log w1) [LogException "failed to process line" e] |}
    in
    daemon_loop json_loads jedi_Script (app before (line :: next :: rest)) w
    = daemon_loop json_loads jedi_Script (next :: rest) w2
    /\ daemon_loop json_loads jedi_Script (next :: rest) w2
       = let served := process_line json_loads jedi_Script next o in
         match guarded (fst served) (log w2) with
         | Continue l =>
             daemon_loop json_loads jedi_Script rest
               {| out := snd served; log := l |}
         | Uncaught e' => (Exited e', {| out := snd served; log := log w2 |})
         end.
Proof.
  intros before line next rest w w1 e o Hb Hrun Hl Hn Hp He w2.
  split.
  - rewrite (daemon_loop_app before _ Hb w w1 Hrun).
    now apply daemon_loop_failure.
  - simpl. destruct (next =? "") eqn:E; [now apply String.eqb_eq in E|].
    simpl.
    now destruct (process_line json_loads jedi_Script next o).
Qed.

(** C8.  A line that decodes to a request whose [type] is absent or
    falsy makes [process_line] raise ([AssertionError], or
    [AttributeError] when the request is no object) without writing
    anything; the loop logs the failure and goes on with the lines
    that follow, the stream untouched. *)
Theorem request_without_type_is_skipped :
  forall (line : string) (data : pyval),
    json_loads (strip line) = Ok data ->
    (type_field data = None
     \/ exists v, type_field data = Some v /\ is_truthy v = false) ->
    exists e,
      (e = AssertionError \/ e = AttributeError)
      /\ (forall o,
            process_line json_loads jedi_Script line o = (Raise e, o))
      /\ (forall o,
            emitted o (snd (process_line json_loads jedi_Script line o))
            = "")
      /\ (line <> "" ->
          forall rest w,
            daemon_loop json_loads jedi_Script (line :: rest) w
            = daemon_loop json_loads jedi_Script rest
                {| out := out w;
                   log := app (log w)
                            [LogException "failed to process line" e] |}).
Proof.
  intros line data Hj Ht.
  assert (He : exists e,
             (e = AssertionError \/ e = AttributeError)
             /\ build_out_data json_loads jedi_Script line = Raise e).
  { destruct (build_out_data_without_type line data Hj Ht) as [H|H];
      eexists; split; try exact H; tauto. }
  destruct He as (e & Hcls & Hb).
  assert (Hp : forall o,
             process_line json_loads jedi_Script line o = (Raise e, o)).
  { intros o. unfold process_line. now rewrite Hb. }
  exists e. repeat split; try assumption.
  - intros o. rewrite Hp. unfold emitted. simpl.
    rewrite <- (append_empty (written o)) at 2. apply drop_append.
  - intros Hl rest w. apply daemon_loop_failure; [assumption | apply Hp |].
    destruct Hcls; subst; discriminate.
Qed.

End DaemonFacts.

(** ** The protocol's example request *)

Lemma request_line_not_empty : request_line <> "".
Proof. discriminate. Qed.

(** C1.  The example request decodes to the expected object, and on the
    engine of the example the autocomplete operation itself gives the
    expected entry; but [process_line] raises [TypeError] on the line
    and writes nothing, whatever the engine: the decoded object is
    passed whole to [JediFacade], whose [__init__] has no parameter
    [type] or [uuid].  Past that, [get] returns the bound method without
    calling it, and a response holding it cannot be serialized. *)
Theorem process_line_example_request_raises :
  json_loads_ref (strip request_line) = Ok request_data
  /\ (forall jedi_Script o,
        process_line json_loads_ref jedi_Script request_line o
        = (Raise TypeError, o))
  /\ get_autocomplete (facade_on None [completion_path])
     = Ok [("path" ++ String tab "" ++ "module", "path")]
  /\ get (facade_on None [completion_path]) (PStr "autocomplete")
     = Ok (PMethod "get_autocomplete")
  /\ (forall o,
        write (PDict [("uuid", PStr "1"); ("type", PStr "autocomplete");
                      ("autocomplete", PMethod "get_autocomplete")]) o
        = (Raise TypeError, o)).
Proof. repeat split. Qed.

Lemma daemon_loop_isolates_failure_witness :
  daemon_loop json_loads_ref engine_path
    (app [request_line] (("{}" ++ nl) :: ("[]" ++ nl) :: [])) world0
  = daemon_loop json_loads_ref engine_path [("[]" ++ nl)]
      {| out := stdout0;
         log := [LogException "failed to process line" TypeError;
                 LogException "failed to process line" AssertionError] |}.
Proof.
  refine (proj1 (daemon_loop_isolates_failure json_loads_ref engine_path
                   [request_line] ("{}" ++ nl) ("[]" ++ nl) [] world0
                   {| out := stdout0;
                      log := [LogException "failed to process line"
                                TypeError] |}
                   AssertionError stdout0 _ eq_refl _ _ eq_refl _)).
  - constructor; [exact request_line_not_empty | constructor].
  - discriminate.
  - discriminate.
  - discriminate.
Defined.

Lemma request_without_type_is_skipped_witness :
  exists e,
    (e = AssertionError \/ e = AttributeError)
    /\ (forall o,
          process_line json_loads_ref engine_path ("{}" ++ nl) o
          = (Raise e, o))
    /\ (forall o,
          emitted o
            (snd (process_line json_loads_ref engine_path ("{}" ++ nl) o))
          = "")
    /\ ("{}" ++ nl <> "" ->
        forall rest w,
          daemon_loop json_loads_ref engine_path (("{}" ++ nl) :: rest) w
          = daemon_loop json_loads_ref engine_path rest
              {| out := out w;
                 log := app (log w)
                          [LogException "failed to process line" e] |}).
Proof.
  exact (request_without_type_is_skipped json_loads_ref engine_path
           ("{}" ++ nl) (PDict []) eq_refl (or_introl eq_refl)).
Defined.

(** * Further properties of the daemon's code *)

(** ** Text, continued *)

Lemma str_split_cons (sep : ascii) (a b : string) :
  contains sep a = false ->
  str_split sep (a ++ String sep b) = a :: str_split sep b.
Proof.
  induction a as [|c a IH]; simpl; intros H.
  - now rewrite Ascii.eqb_refl.
  - apply orb_false_iff in H as [Hc Ha].
    rewrite Ascii.eqb_sym, Hc. now rewrite (IH Ha).
Qed.

Lemma str_split_not_nil (sep : ascii) (s : string) : str_split sep s <> [].
Proof.
  destruct s as [|c s]; simpl; [discriminate|].
  destruct (Ascii.eqb c sep); [discriminate|].
  destruct (str_split sep s); discriminate.
Qed.

(** A piece of a split holds no separator, and no character that the
    split text does not hold. *)
Lemma str_split_pieces (sep : ascii) (s x : string) :
  In x (str_split sep s) ->
  contains sep x = false
  /\ forall c, contains c x = true -> contains c s = true.
Proof.
  revert x. induction s as [|c s IH]; simpl; intros x Hx.
  - destruct Hx as [<- | []]. split; [reflexivity | discriminate].
  - destruct (Ascii.eqb c sep) eqn:E.
    + destruct Hx as [<- | Hx].
      * split; [reflexivity | discriminate].
      * destruct (IH x Hx) as [H1 H2]. split; [assumption|].
        intros d Hd. rewrite (H2 d Hd). apply orb_true_r.
    + destruct (str_split sep s) as [|h t] eqn:Es.
      * now elim (str_split_not_nil sep s).
      * destruct Hx as [<- | Hx].
        -- destruct (IH h (or_introl eq_refl)) as [H1 H2]. split.
           ++ simpl. rewrite Ascii.eqb_sym, E. exact H1.
           ++ intros d. simpl. intros Hd.
              apply orb_true_iff in Hd as [Hd | Hd].
              ** now rewrite Hd.
              ** rewrite (H2 d Hd). apply orb_true_r.
        -- destruct (IH x (or_intror Hx)) as [H1 H2]. split; [assumption|].
           intros d Hd. rewrite (H2 d Hd). apply orb_true_r.
Qed.

Lemma contains_lstrip (c : ascii) (s : string) :
  contains c (lstrip s) = true -> contains c s = true.
Proof.
  induction s as [|d s IH]; simpl; [discriminate|].
  destruct (is_space d); [|exact (fun H => H)].
  intros H. rewrite (IH H). apply orb_true_r.
Qed.

Lemma contains_rstrip (c : ascii) (s : string) :
  contains c (rstrip s) = true -> contains c s = true.
Proof.
  induction s as [|d s IH]; simpl; [discriminate|].
  destruct (is_space d && (rstrip s =? "")); simpl; [discriminate|].
  intros H. apply orb_true_iff in H as [H | H].
  - now rewrite H.
  - rewrite (IH H). apply orb_true_r.
Qed.

Lemma contains_strip (c : ascii) (s : string) :
  contains c (strip s) = true -> contains c s = true.
Proof.
  intros H. now apply contains_lstrip, contains_rstrip.
Qed.

Lemma contains_strip_false (c : ascii) (s : string) :
  contains c s = false -> contains c (strip s) = false.
Proof.
  intros H. destruct (contains c (strip s)) eqn:E; [|reflexivity].
  now rewrite (contains_strip _ _ E) in H.
Qed.

Lemma contains_append (c : ascii) (a b : string) :
  contains c (a ++ b) = contains c a || contains c b.
Proof.
  induction a as [|d a IH]; simpl; [reflexivity|].
  now rewrite IH, orb_assoc.
Qed.

(** ** The unpacking statement and the two loops, continued *)

(** X1.  The unpacking statement never binds [value] to [None] and
    never raises [IndexError]: on a list of two it binds both names, on
    any other list it raises [ValueError].  Its handler is dead code. *)
Theorem name_and_value_never_None :
  forall (parameter : list string),
    match name_and_value parameter with
    | Ok (n, value) => exists v, value = Some v /\ parameter = [n; v]
    | Raise e => e = ValueError /\ List.length parameter <> 2
    end.
Proof.
  intros parameter.
  destruct (name_and_value_cases parameter) as [(n & v & -> & E) | [Hl E]];
    rewrite E.
  - now exists v.
  - now split.
Qed.

Lemma parameters_loop_returns (parameters : list (list string))
    (completions entries : list (string * string)) :
  parameters_loop parameters completions = Ok entries ->
  Forall (fun p => List.length p = 2) parameters
  /\ entries = app completions (map default_entry parameters).
Proof.
  revert completions. induction parameters as [|p ps IH];
    intros completions H; simpl in H.
  - injection H as <-. split; [constructor | now rewrite app_nil_r].
  - destruct (name_and_value_cases p) as [(n & v & -> & E) | [Hl E]];
      rewrite E in H; [|discriminate].
    simpl in H. destruct (IH _ H) as [Hall ->]. split.
    + now constructor.
    + simpl. now rewrite <- app_assoc.
Qed.

Lemma call_assigments_loop_returns (complete_all : bool)
    (parameters : list (list string)) (index : nat)
    (completions placeholders : list string) :
  call_assigments_loop complete_all parameters index completions
  = Ok placeholders ->
  Forall (fun p => List.length p = 2) parameters
  /\ placeholders
     = app completions
         (if complete_all then default_placeholders index parameters
          else []).
Proof.
  revert index completions. induction parameters as [|p ps IH];
    intros index completions H; simpl in H.
  - injection H as <-. split; [constructor|].
    destruct complete_all; now rewrite app_nil_r.
  - destruct (name_and_value_cases p) as [(n & v & -> & E) | [Hl E]];
      rewrite E in H; [|discriminate].
    simpl in H. destruct complete_all.
    + destruct (IH _ _ H) as [Hall ->]. split; [now constructor|].
      simpl. now rewrite <- app_assoc.
    + destruct (IH _ _ H) as [Hall ->]. split; [now constructor|].
      reflexivity.
Qed.

Lemma call_assigments_loop_defaults (complete_all : bool)
    (parameters : list (list string)) :
  Forall (fun p => List.length p = 2) parameters ->
  forall index completions,
    call_assigments_loop complete_all parameters index completions
    = Ok (app completions
            (if complete_all then default_placeholders index parameters
             else [])).
Proof.
  induction 1 as [|p ps Hp _ IH]; intros index completions; simpl.
  - destruct complete_all; now rewrite app_nil_r.
  - destruct p as [|n [|v [|x r]]]; try discriminate Hp.
    simpl. destruct complete_all; rewrite IH.
    + simpl. now rewrite <- app_assoc.
    + reflexivity.
Qed.

(** X2.  Whatever [_parameters_for_completion] returns, every entry has
    the form for a parameter with a default: the display is the name, a
    tab and the default, the snippet is [name=${1:default}].  The entry
    of a bare name is never produced.  There is one entry per extracted
    parameter, in order. *)
Theorem parameter_entries_have_defaults :
  forall (self : JediFacade) (entries : list (string * string)),
    _parameters_for_completion self = Ok entries ->
    exists signature,
      jedi.call_signatures (script self) = Ok signature
      /\ entries = map default_entry (get_function_parameters signature)
      /\ Forall (fun entry =>
                   exists n v,
                     entry = (n ++ String tab "" ++ v,
                              n ++ "=${1:" ++ v ++ "}"))
           entries.
Proof.
  intros self entries H. unfold _parameters_for_completion in H.
  destruct (jedi.call_signatures (script self)) as [signature|e];
    [|discriminate].
  simpl in H. destruct (parameters_loop_returns _ _ _ H) as [Hall ->].
  exists signature. repeat split. simpl. apply Forall_forall.
  intros entry Hin. apply in_map_iff in Hin as (p & <- & Hp).
  rewrite Forall_forall in Hall. specialize (Hall p Hp).
  destruct p as [|n [|v [|x r]]]; try discriminate Hall.
  now exists n, v.
Qed.

Lemma parameter_entries_have_defaults_witness :
  exists signature,
    jedi.call_signatures (script (facade_on (Some signature_defaults) []))
    = Ok signature
    /\ [("b" ++ String tab "" ++ "5", "b=${1:5}");
        ("c" ++ String tab "" ++ "7", "c=${1:7}")]
       = map default_entry (get_function_parameters signature)
    /\ Forall (fun entry =>
                 exists n v,
                   entry = (n ++ String tab "" ++ v,
                            n ++ "=${1:" ++ v ++ "}"))
         [("b" ++ String tab "" ++ "5", "b=${1:5}");
          ("c" ++ String tab "" ++ "7", "c=${1:7}")].
Proof.
  exact (parameter_entries_have_defaults
           (facade_on (Some signature_defaults) []) _ eq_refl).
Defined.

(** X3.  Unless the toggle is [all], the funcargs operation returns
    nothing but the empty text: when it returns at all, no parameter
    has given a placeholder. *)
Theorem funcargs_without_all_is_empty :
  forall (toggle : string) (self : JediFacade) (snippet : string),
    (toggle =? "all") = false ->
    get_funcargs toggle self = Ok snippet ->
    snippet = "".
Proof.
  intros toggle self snippet Ht H.
  unfold get_funcargs, _complete_call_assigments in H. rewrite Ht in H.
  destruct (jedi.call_signatures (script self)) as [signature|e];
    [|discriminate].
  simpl in H.
  destruct (call_assigments_loop false (get_function_parameters signature)
              0 []) as [placeholders|e] eqn:E; [|discriminate].
  destruct (call_assigments_loop_returns _ _ _ _ _ E) as [_ ->].
  simpl in H. now injection H as <-.
Qed.

Lemma funcargs_without_all_is_empty_witness :
  get_funcargs "required" (facade_on (Some signature_defaults) []) = Ok ""
  /\ "" = "".
Proof.
  split; [reflexivity|].
  exact (funcargs_without_all_is_empty "required"
           (facade_on (Some signature_defaults) []) "" eq_refl eq_refl).
Defined.

(** X4.  Under the toggle [all], when every extracted parameter is a
    name with a default, the funcargs operation returns the placeholders
    [name=${i:default}] joined by a comma and a space, [i] counting the
    extracted parameters from 1 in their order (skipped parameters take
    no number). *)
Theorem funcargs_all_numbers_defaults :
  forall (self : JediFacade) (signature : option jedi.CallDef),
    jedi.call_signatures (script self) = Ok signature ->
    Forall (fun p => List.length p = 2)
      (get_function_parameters signature) ->
    get_funcargs "all" self
    = Ok (String.concat ", "
            (default_placeholders 0 (get_function_parameters signature))).
Proof.
  intros self signature Hs Hall.
  unfold get_funcargs, _complete_call_assigments. rewrite Hs. simpl.
  now rewrite (call_assigments_loop_defaults true _ Hall).
Qed.

Lemma funcargs_all_numbers_defaults_witness :
  get_funcargs "all" (facade_on (Some signature_defaults) [])
  = Ok "b=${1:5}, c=${2:7}".
Proof.
  refine (funcargs_all_numbers_defaults
            (facade_on (Some signature_defaults) [])
            (Some signature_defaults) eq_refl _).
  repeat constructor.
Defined.

Lemma all_pairs_or_not (parameters : list (list string)) :
  Forall (fun p => List.length p = 2) parameters
  \/ Exists (fun p => List.length p <> 2) parameters.
Proof.
  induction parameters as [|p ps [IH | IH]].
  - left. constructor.
  - destruct (Nat.eq_dec (List.length p) 2) as [E | E].
    + left. now constructor.
    + right. now constructor.
  - right. now apply Exists_cons_tl.
Qed.

(** X5.  With an engine that answers the completion query, the funcargs
    operation (under any toggle) and the autocomplete operation return
    on exactly the same sessions: both need the signature query to
    answer and every extracted parameter to be a name with a default. *)
Theorem funcargs_and_autocomplete_return_together :
  forall (self : JediFacade) (toggle : string)
         (candidates : list jedi.Completion),
    jedi.completions (script self) = Ok candidates ->
    (exists snippet, get_funcargs toggle self = Ok snippet)
    <-> (exists entries, get_autocomplete self = Ok entries).
Proof.
  intros self toggle candidates Hc.
  unfold get_funcargs, _complete_call_assigments, get_autocomplete,
    _parameters_for_completion, _completion.
  rewrite Hc.
  destruct (jedi.call_signatures (script self)) as [signature|e]; simpl.
  2: { split; intros [x H]; discriminate. }
  destruct (all_pairs_or_not (get_function_parameters signature))
    as [Hall | Hex].
  - rewrite (call_assigments_loop_defaults _ _ Hall),
      (parameters_loop_defaults _ Hall). simpl.
    split; intros _; eexists; reflexivity.
  - rewrite (call_assigments_loop_raises _ _ Hex),
      (parameters_loop_raises _ Hex). simpl.
    split; intros [x H]; discriminate.
Qed.

Lemma funcargs_and_autocomplete_return_together_witness :
  (exists snippet,
      get_funcargs "all" (facade_on (Some signature_defaults)
                            [completion_path]) = Ok snippet)
  <-> (exists entries,
          get_autocomplete (facade_on (Some signature_defaults)
                              [completion_path]) = Ok entries).
Proof.
  exact (funcargs_and_autocomplete_return_together
           (facade_on (Some signature_defaults) [completion_path])
           "all" [completion_path] eq_refl).
Defined.

(** ** Parameter extraction, continued *)

Lemma str_split_single (sep : ascii) (s x : string) :
  str_split sep s = [x] -> x = s.
Proof.
  revert x. induction s as [|c s IH]; simpl; intros x H.
  - now injection H as <-.
  - destruct (Ascii.eqb c sep).
    + injection H as _ H. now elim (str_split_not_nil sep s).
    + destruct (str_split sep s) as [|h t] eqn:E.
      * now elim (str_split_not_nil sep s).
      * injection H as <- ->. now rewrite (IH h eq_refl).
Qed.

Lemma in_get_function_parameters (signature : option jedi.CallDef)
    (l : list string) :
  In l (get_function_parameters signature) ->
  exists cd p,
    signature = Some cd /\ In p (jedi.params cd)
    /\ contains "*"%char (strip (jedi.get_code p)) = false
    /\ (strip (jedi.get_code p) =? "self") = false
    /\ l = map strip (str_split "="%char (strip (jedi.get_code p))).
Proof.
  destruct signature as [cd|]; [|intros []].
  rewrite get_function_parameters_flat_map. intros H.
  apply in_flat_map in H as (p & Hp & Hl). unfold kept in Hl.
  destruct (contains "*"%char (strip (jedi.get_code p))) eqn:Hstar;
    [destruct Hl|].
  destruct (strip (jedi.get_code p) =? "self") eqn:Hself; [destruct Hl|].
  destruct Hl as [<- | []]. now exists cd, p.
Qed.

(** X6.  What the extraction returns is clean: each extracted parameter
    is a list that is not empty and is not the lone name [self], and
    each of its texts is stripped and holds neither an equals sign nor a
    star.  No more parameters are extracted than the signature has. *)
Theorem extracted_parameters_are_clean :
  forall (signature : option jedi.CallDef) (l : list string),
    In l (get_function_parameters signature) ->
    l <> [] /\ l <> ["self"]
    /\ Forall (fun s => strip s = s
                        /\ contains "="%char s = false
                        /\ contains "*"%char s = false) l
    /\ exists cd,
         signature = Some cd
         /\ List.length (get_function_parameters signature)
            <= List.length (jedi.params cd).
Proof.
  intros signature l H.
  destruct (in_get_function_parameters _ _ H)
    as (cd & p & -> & Hp & Hstar & Hself & ->).
  set (cleaned := strip (jedi.get_code p)) in *.
  repeat split.
  - intros E. apply map_eq_nil in E. now elim (str_split_not_nil _ _ E).
  - intros E. destruct (str_split "="%char cleaned) as [|x [|y t]] eqn:Es;
      try discriminate E.
    injection E as E. apply str_split_single in Es. subst x.
    unfold cleaned in E. rewrite strip_idempotent in E.
    fold cleaned in E. rewrite E in Hself. discriminate.
  - apply Forall_forall. intros s Hs. apply in_map_iff in Hs as (x & <- & Hx).
    destruct (str_split_pieces _ _ _ Hx) as [Hsep Hsub].
    repeat split.
    + apply strip_idempotent.
    + now apply contains_strip_false.
    + apply contains_strip_false.
      destruct (contains "*"%char x) eqn:E; [|reflexivity].
      now rewrite (Hsub _ E) in Hstar.
  - exists cd. split; [reflexivity|].
    rewrite get_function_parameters_flat_map.
    clear. induction (jedi.params cd) as [|q qs IH]; simpl; [lia|].
    rewrite length_app. unfold kept at 1.
    destruct (contains "*"%char (strip (jedi.get_code q))
              || (strip (jedi.get_code q) =? "self")); simpl; lia.
Qed.

Lemma extracted_parameters_are_clean_witness :
  ["b"; "5"] <> [] /\ ["b"; "5"] <> ["self"]
  /\ Forall (fun s => strip s = s
                      /\ contains "="%char s = false
                      /\ contains "*"%char s = false) ["b"; "5"]
  /\ exists cd,
       Some signature_mixed = Some cd
       /\ List.length (get_function_parameters (Some signature_mixed))
          <= List.length (jedi.params cd).
Proof.
  apply (extracted_parameters_are_clean (Some signature_mixed) ["b"; "5"]).
  right. now left.
Defined.

(** X7.  A parameter whose stripped text is a name, an equals sign and
    a default (neither holding an equals sign or a star) is extracted
    as the list of the stripped name and the stripped default, which
    the unpacking statement reads as that name and that default. *)
Theorem parameter_with_default_is_extracted :
  forall (cd : jedi.CallDef) (p : jedi.Param) (a b : string),
    In p (jedi.params cd) ->
    strip (jedi.get_code p) = a ++ String "="%char b ->
    contains "="%char a = false -> contains "="%char b = false ->
    contains "*"%char a = false -> contains "*"%char b = false ->
    In [strip a; strip b] (get_function_parameters (Some cd))
    /\ name_and_value [strip a; strip b] = Ok (strip a, Some (strip b)).
Proof.
  intros cd p a b Hp Hcode Ha Hb Hsa Hsb.
  split; [|reflexivity].
  rewrite get_function_parameters_flat_map. apply in_flat_map.
  exists p. split; [assumption|]. unfold kept. rewrite Hcode.
  assert (Hstar : contains "*"%char (a ++ String "="%char b) = false).
  { rewrite contains_append. simpl. now rewrite Hsa, Hsb. }
  assert (Hself : (a ++ String "="%char b =? "self") = false).
  { destruct (a ++ String "="%char b =? "self") eqn:E; [|reflexivity].
    apply String.eqb_eq in E.
    assert (Hc : contains "="%char (a ++ String "="%char b) = true).
    { rewrite contains_append. simpl. apply orb_true_r. }
    rewrite E in Hc. discriminate. }
  rewrite Hstar, Hself. simpl.
  rewrite (str_split_cons _ _ _ Ha),
    (str_split_without_separator _ _ Hb).
  now left.
Qed.

Lemma parameter_with_default_is_extracted_witness :
  In [strip "c "; strip " 7"]
    (get_function_parameters (Some signature_defaults))
  /\ name_and_value [strip "c "; strip " 7"]
     = Ok (strip "c ", Some (strip " 7")).
Proof.
  apply (parameter_with_default_is_extracted signature_defaults
           (param "c = 7") "c " " 7");
    try reflexivity.
  right. right. now left.
Defined.

(** ** The autocomplete operation, continued *)

(** X8.  Whatever the autocomplete operation returns is the entries of
    the extracted parameters followed by the formatted completions of
    the engine, both in the engine's order: as many entries as there
    are extracted parameters and candidates, and past the parameters
    the texts to insert are the candidates' names. *)
Theorem get_autocomplete_returns :
  forall (self : JediFacade) (entries : list (string * string)),
    get_autocomplete self = Ok entries ->
    exists signature candidates,
      jedi.call_signatures (script self) = Ok signature
      /\ jedi.completions (script self) = Ok candidates
      /\ entries
         = app (map default_entry (get_function_parameters signature))
               (map format_completion candidates)
      /\ List.length entries
         = List.length (get_function_parameters signature)
           + List.length candidates
      /\ map snd
           (skipn (List.length (get_function_parameters signature)) entries)
         = map jedi.name candidates.
Proof.
  intros self entries H.
  unfold get_autocomplete, _parameters_for_completion, _completion in H.
  destruct (jedi.call_signatures (script self)) as [signature|e];
    [|discriminate].
  simpl in H.
  destruct (parameters_loop (get_function_parameters signature) [])
    as [ps|e] eqn:E; [|discriminate].
  destruct (parameters_loop_returns _ _ _ E) as [_ ->].
  destruct (jedi.completions (script self)) as [candidates|e'];
    [|discriminate].
  simpl in H. rewrite !or_nil_id in H. injection H as <-.
  exists signature, candidates. repeat split.
  - now rewrite length_app, !length_map.
  - rewrite <- (length_map default_entry) at 1.
    rewrite skipn_app, skipn_all, Nat.sub_diag. simpl.
    rewrite map_map. reflexivity.
Qed.

Lemma get_autocomplete_returns_witness :
  exists signature candidates,
    jedi.call_signatures
      (script (facade_on (Some signature_defaults) [completion_path]))
    = Ok signature
    /\ jedi.completions
         (script (facade_on (Some signature_defaults) [completion_path]))
       = Ok candidates
    /\ [("b" ++ String tab "" ++ "5", "b=${1:5}");
        ("c" ++ String tab "" ++ "7", "c=${1:7}");
        ("path" ++ String tab "" ++ "module", "path")]
       = app (map default_entry (get_function_parameters signature))
             (map format_completion candidates)
    /\ 3 = List.length (get_function_parameters signature)
           + List.length candidates
    /\ map snd
         (skipn (List.length (get_function_parameters signature))
            [("b" ++ String tab "" ++ "5", "b=${1:5}");
             ("c" ++ String tab "" ++ "7", "c=${1:7}");
             ("path" ++ String tab "" ++ "module", "path")])
       = map jedi.name candidates.
Proof.
  exact (get_autocomplete_returns
           (facade_on (Some signature_defaults) [completion_path])
           _ eq_refl).
Defined.

(** X9.  The autocomplete operation fails only in three ways: with the
    exception of the signature query; with [ValueError], when an
    extracted parameter is not a name with a default; or, those two
    past, with the exception of the completion query. *)
Theorem get_autocomplete_raises :
  forall (self : JediFacade) (e : exn),
    get_autocomplete self = Raise e ->
    jedi.call_signatures (script self) = Raise e
    \/ (exists signature,
           jedi.call_signatures (script self) = Ok signature
           /\ Exists (fun p => List.length p <> 2)
                (get_function_parameters signature)
           /\ e = ValueError)
    \/ (exists signature,
           jedi.call_signatures (script self) = Ok signature
           /\ Forall (fun p => List.length p = 2)
                (get_function_parameters signature)
           /\ jedi.completions (script self) = Raise e).
Proof.
  intros self e H.
  unfold get_autocomplete, _parameters_for_completion, _completion in H.
  destruct (jedi.call_signatures (script self)) as [signature|e0].
  2: { left. simpl in H. now injection H as ->. }
  right. simpl in H.
  destruct (all_pairs_or_not (get_function_parameters signature))
    as [Hall | Hex].
  - right. exists signature. repeat split; try assumption.
    rewrite (parameters_loop_defaults _ Hall) in H. simpl in H.
    destruct (jedi.completions (script self)); [discriminate|].
    simpl in H. now injection H as ->.
  - left. exists signature. repeat split; try assumption.
    rewrite (parameters_loop_raises _ Hex) in H. simpl in H.
    now injection H as <-.
Qed.

Lemma get_autocomplete_raises_witness :
  jedi.call_signatures
    (script {| script :=
                 {| jedi.call_signatures := Ok None;
                    jedi.completions := Raise (EngineError "Broken");
                    jedi.goto_assignments := Ok [];
                    jedi.usages := Ok [] |} |})
  = Raise (EngineError "Broken")
  \/ (exists signature,
         Ok None = Ok signature
         /\ Exists (fun p => List.length p <> 2)
              (get_function_parameters signature)
         /\ EngineError "Broken" = ValueError)
  \/ (exists signature,
         Ok None = Ok signature
         /\ Forall (fun p => List.length p = 2)
              (get_function_parameters signature)
         /\ @Raise (list jedi.Completion) (EngineError "Broken")
            = Raise (EngineError "Broken")).
Proof.
  exact (get_autocomplete_raises
           {| script :=
                {| jedi.call_signatures := Ok None;
                   jedi.completions := Raise (EngineError "Broken");
                   jedi.goto_assignments := Ok [];
                   jedi.usages := Ok [] |} |}
           (EngineError "Broken") eq_refl).
Defined.

(** ** The goto and usages operations, continued *)

Lemma exn_eqb_eq (a b : exn) : exn_eqb a b = true <-> a = b.
Proof.
  destruct a, b; simpl; split; intros H; try discriminate H;
    try reflexivity.
  - apply String.eqb_eq in H. now subst.
  - injection H as ->. apply String.eqb_refl.
Qed.

Lemma outside_builtins_spec (l : list jedi.BaseDefinition)
    (loc : string * Z * Z) :
  In loc (outside_builtins l)
  <-> exists i,
        In i l /\ jedi.in_builtin_module i = false /\ location i = loc.
Proof.
  unfold outside_builtins. rewrite in_map_iff. split.
  - intros (i & Hloc & Hi). apply filter_In in Hi as [Hi Hb].
    exists i. repeat split; try assumption.
    now destruct (jedi.in_builtin_module i).
  - intros (i & Hi & Hb & Hloc). exists i. split; [assumption|].
    apply filter_In. split; [assumption|]. now rewrite Hb.
Qed.

Lemma outside_builtins_length (l : list jedi.BaseDefinition) :
  List.length (outside_builtins l) <= List.length l.
Proof.
  unfold outside_builtins. rewrite length_map. apply filter_length_le.
Qed.

(** X10.  The goto operation returns [None] exactly when the engine's
    definition query raises [NotFoundError]: an answer of the engine,
    even one that holds only definitions in builtin modules, gives a
    list, and any other exception leaves the operation. *)
Theorem get_goto_None_iff :
  forall (self : JediFacade),
    get_goto self = Ok None
    <-> jedi.goto_assignments (script self) = Raise NotFoundError.
Proof.
  intros self. unfold get_goto, _goto.
  destruct (jedi.goto_assignments (script self)) as [l|e];
    unfold try_except_else.
  - split; discriminate.
  - destruct (exn_eqb NotFoundError e) eqn:E.
    + apply exn_eqb_eq in E. subst e. split; reflexivity.
    + split; [discriminate|]. intros H. injection H as ->.
      simpl in E. discriminate E.
Qed.

(** X11.  When the definition query answers, the goto operation returns
    the locations of the reported definitions that are outside builtin
    modules, and only those: a location is returned exactly when a
    reported definition outside builtin modules has it; no more
    locations are returned than definitions were reported; and when all
    of them are in builtin modules the result is the empty list. *)
Theorem get_goto_locations :
  forall (self : JediFacade) (definitions : list jedi.BaseDefinition),
    jedi.goto_assignments (script self) = Ok definitions ->
    exists locations,
      get_goto self = Ok (Some locations)
      /\ (forall loc,
             In loc locations
             <-> exists i,
                   In i definitions
                   /\ jedi.in_builtin_module i = false
                   /\ (jedi.module_path i, jedi.line i, jedi.column i) = loc)
      /\ List.length locations <= List.length definitions
      /\ ((forall i, In i definitions -> jedi.in_builtin_module i = true)
          -> locations = []).
Proof.
  intros self definitions H. exists (outside_builtins definitions).
  unfold get_goto, _goto. rewrite H. simpl. repeat split.
  - now apply outside_builtins_spec.
  - now apply outside_builtins_spec.
  - apply outside_builtins_length.
  - intros Hall.
    destruct (outside_builtins definitions) as [|loc t] eqn:E;
      [reflexivity|].
    assert (Hin : In loc (outside_builtins definitions))
      by (rewrite E; now left).
    apply outside_builtins_spec in Hin as (i & Hi & Hb & _).
    rewrite (Hall i Hi) in Hb. discriminate.
Qed.

Lemma get_goto_locations_witness :
  exists locations,
    get_goto
      {| script :=
           {| jedi.call_signatures := Ok None;
              jedi.completions := Ok [];
              jedi.goto_assignments :=
                Ok [ {| jedi.module_path := "os.py"; jedi.line := 1%Z;
                        jedi.column := 0%Z;
                        jedi.in_builtin_module := true |} ];
              jedi.usages := Ok [] |} |}
    = Ok (Some locations)
    /\ (forall loc,
           In loc locations
           <-> exists i,
                 In i [ {| jedi.module_path := "os.py"; jedi.line := 1%Z;
                           jedi.column := 0%Z;
                           jedi.in_builtin_module := true |} ]
                 /\ jedi.in_builtin_module i = false
                 /\ (jedi.module_path i, jedi.line i, jedi.column i) = loc)
    /\ List.length locations <= 1
    /\ ((forall i,
            In i [ {| jedi.module_path := "os.py"; jedi.line := 1%Z;
                      jedi.column := 0%Z;
                      jedi.in_builtin_module := true |} ]
            -> jedi.in_builtin_module i = true)
        -> locations = []).
Proof.
  exact (get_goto_locations
           {| script :=
                {| jedi.call_signatures := Ok None;
                   jedi.completions := Ok [];
                   jedi.goto_assignments :=
                     Ok [ {| jedi.module_path := "os.py"; jedi.line := 1%Z;
                             jedi.column := 0%Z;
                             jedi.in_builtin_module := true |} ];
                   jedi.usages := Ok [] |} |}
           _ eq_refl).
Defined.

(** X12.  On the same answer of the engine the goto and usages
    operations give the same locations, and on the same exception other
    than [NotFoundError] they raise alike: the filter is one and the
    same, and the two operations differ on [NotFoundError] only. *)
Theorem goto_and_usages_agree :
  forall (self : JediFacade),
    jedi.goto_assignments (script self) = jedi.usages (script self) ->
    jedi.usages (script self) <> Raise NotFoundError ->
    match get_usages self with
    | Ok locations => get_goto self = Ok (Some locations)
    | Raise e => get_goto self = Raise e
    end.
Proof.
  intros self Hsame Hnf.
  unfold get_goto, _goto, get_usages, _usages. rewrite Hsame.
  destruct (jedi.usages (script self)) as [l|e];
    unfold try_except_else, bind; [reflexivity|].
  destruct (exn_eqb NotFoundError e) eqn:E; [|reflexivity].
  apply exn_eqb_eq in E. subst e. now elim Hnf.
Qed.

Lemma goto_and_usages_agree_witness :
  get_goto
    {| script :=
         {| jedi.call_signatures := Ok None;
            jedi.completions := Ok [];
            jedi.goto_assignments :=
              Ok [ {| jedi.module_path := "a.py"; jedi.line := 3%Z;
                      jedi.column := 4%Z;
                      jedi.in_builtin_module := false |} ];
            jedi.usages :=
              Ok [ {| jedi.module_path := "a.py"; jedi.line := 3%Z;
                      jedi.column := 4%Z;
                      jedi.in_builtin_module := false |} ] |} |}
  = Ok (Some [("a.py", 3%Z, 4%Z)]).
Proof.
  refine (goto_and_usages_agree
            {| script :=
                 {| jedi.call_signatures := Ok None;
                    jedi.completions := Ok [];
                    jedi.goto_assignments :=
                      Ok [ {| jedi.module_path := "a.py"; jedi.line := 3%Z;
                              jedi.column := 4%Z;
                              jedi.in_builtin_module := false |} ];
                    jedi.usages :=
                      Ok [ {| jedi.module_path := "a.py"; jedi.line := 3%Z;
                              jedi.column := 4%Z;
                              jedi.in_builtin_module := false |} ] |} |}
            eq_refl _).
  discriminate.
Defined.

(** ** Completions and the dispatcher, continued *)

(** X13.  The display of a formatted completion splits back at the tab
    into the candidate's name and kind, when neither holds a tab; the
    text to insert is the name. *)
Theorem format_completion_splits_back :
  forall (complete : jedi.Completion),
    contains tab (jedi.name complete) = false ->
    contains tab (jedi.type complete) = false ->
    str_split tab (fst (format_completion complete))
    = [jedi.name complete; jedi.type complete]
    /\ snd (format_completion complete) = jedi.name complete.
Proof.
  intros complete Hn Ht. split; [|reflexivity].
  unfold format_completion. simpl.
  rewrite (str_split_cons _ _ _ Hn).
  now rewrite (str_split_without_separator _ _ Ht).
Qed.

Lemma format_completion_splits_back_witness :
  str_split tab (fst (format_completion completion_path))
  = ["path"; "module"]
  /\ snd (format_completion completion_path) = "path".
Proof.
  exact (format_completion_splits_back completion_path eq_refl eq_refl).
Defined.

(** X14.  The dispatcher [get] returns an attribute exactly for the four
    actions [goto], [usages], [funcargs] and [autocomplete], and what it
    returns is the bound method of that name, not its result; any other
    text raises [AttributeError], and an action that is not text raises
    [TypeError].  The session is not consulted. *)
Theorem get_known_actions :
  forall (self : JediFacade) (action : pyval),
    match get self action with
    | Ok m =>
        exists a,
          action = PStr a
          /\ In a ["goto"; "usages"; "funcargs"; "autocomplete"]
          /\ m = PMethod ("get_" ++ a)
    | Raise e =>
        (e = AttributeError
         /\ exists a,
              action = PStr a
              /\ ~ In a ["goto"; "usages"; "funcargs"; "autocomplete"])
        \/ (e = TypeError /\ forall a, action <> PStr a)
    end.
Proof.
  intros self action.
  destruct action as [| | | |a| | |]; simpl;
    try (right; split; [reflexivity | discriminate]).
  unfold facade_getattr. simpl.
  destruct (a =? "goto") eqn:E1; simpl.
  { apply String.eqb_eq in E1. exists a. subst a. simpl. tauto. }
  destruct (a =? "usages") eqn:E2; simpl.
  { apply String.eqb_eq in E2. exists a. subst a. simpl. tauto. }
  destruct (a =? "funcargs") eqn:E3; simpl.
  { apply String.eqb_eq in E3. exists a. subst a. simpl. tauto. }
  destruct (a =? "autocomplete") eqn:E4; simpl.
  { apply String.eqb_eq in E4. exists a. subst a. simpl. tauto. }
  left. split; [reflexivity|]. exists a. split; [reflexivity|].
  apply String.eqb_neq in E1, E2, E3, E4. simpl.
  intros [H | [H | [H | [H | []]]]]; congruence.
Qed.

(** ** The constructor call, the dispatcher and the loop, continued *)

Lemma json_loads_ref_no_exit (s : string) :
  json_loads_ref s <> Raise SystemExit.
Proof.
  unfold json_loads_ref.
  destruct (scan_value (S (String.length s)) (skip_ws s)) as [[v r]|];
    [|discriminate].
  destruct (skip_ws r); discriminate.
Qed.

Section DaemonCoverage.

Variable json_loads : string -> result pyval.
Variable jedi_Script :
  pyval -> Z -> Z -> pyval -> pyval -> result jedi.Script.

(** X15.  The constructor call rejects a request object with
    [TypeError], the engine not consulted, as soon as the object has a
    key that is none of [source], [line], [offset], [filename] and
    [encoding], or lacks one of the first three. *)
Theorem constructor_rejects_request :
  forall (d : dict),
    (exists k v, In (k, v) d /\ ~ In k init_parameters)
    \/ dict_lookup d "source" = None
    \/ dict_lookup d "line" = None
    \/ dict_lookup d "offset" = None ->
    JediFacade_kwargs jedi_Script (PDict d) = Raise TypeError.
Proof.
  intros d H. unfold JediFacade_kwargs.
  destruct (existsb
              (fun kv => negb (existsb (String.eqb (fst kv)) init_parameters))
              d) eqn:E; [reflexivity|].
  destruct H as [(k & v & Hin & Hk) | H].
  - exfalso.
    assert (Ht : existsb
                   (fun kv =>
                      negb (existsb (String.eqb (fst kv)) init_parameters))
                   d = true).
    { apply existsb_exists. exists (k, v). split; [assumption|].
      apply negb_true_iff. cbn [fst].
      destruct (existsb (String.eqb k) init_parameters) eqn:Ek;
        [|reflexivity].
      apply existsb_exists in Ek as (x & Hx & Hkx).
      apply String.eqb_eq in Hkx. subst x. now elim Hk. }
    rewrite Ht in E. discriminate.
  - destruct H as [-> | [H | H]]; [reflexivity| |].
    + rewrite H. now destruct (dict_lookup d "source").
    + rewrite H.
      now destruct (dict_lookup d "source"), (dict_lookup d "line").
Qed.


(** X17.  [process_line] answers no line: whatever the line, the
    decoder and the engine, it raises and leaves the output stream as
    it was.  The exception is the decoder's, or else [AttributeError],
    [AssertionError], [KeyError] or [TypeError]. *)
Theorem process_line_never_answers :
  forall (line : string) (o : stdout_t),
    exists e,
      process_line json_loads jedi_Script line o = (Raise e, o)
      /\ (json_loads (strip line) = Raise e
          \/ In e [AttributeError; AssertionError; KeyError; TypeError]).
Proof.
  intros line o.
  destruct (build_out_data_raises json_loads jedi_Script line)
    as (e & H & Hcls).
  exists e. split.
  - unfold process_line. now rewrite H.
  - destruct Hcls as [Hd | [_ Hin]]; [now left | now right].
Qed.

(** X18.  A request object with a truthy [type] fails by its [uuid]
    alone: without one [process_line] raises [KeyError]; with one it
    raises [TypeError], from the constructor call, whatever the action
    is.  An unknown action is never told apart from a known one. *)
Theorem process_line_failure_by_shape :
  forall (line : string) (d : dict) (action_type : pyval) (o : stdout_t),
    json_loads (strip line) = Ok (PDict d) ->
    dict_lookup d "type" = Some action_type ->
    is_truthy action_type = true ->
    process_line json_loads jedi_Script line o
    = (Raise (match dict_lookup d "uuid" with
              | Some _ => TypeError
              | None => KeyError
              end), o).
Proof.
  intros line d action_type o Hj Ht Hv.
  unfold process_line, build_out_data. rewrite Hj.
  cbn [bind data_get]. rewrite Ht. cbn [option_default]. rewrite Hv.
  cbn [bind py_assert data_item].
  destruct (dict_lookup d "uuid"); cbn [bind]; [|reflexivity].
  now rewrite (JediFacade_kwargs_rejects_type jedi_Script d action_type Ht).
Qed.

(** X19.  With a decoder that does not end the process, the daemon
    never ends before its input does and writes nothing: the run ends
    at the end of the input with the output stream as it was, the log
    keeps its records and gains exactly one failure record for each
    line read. *)
Theorem daemon_loop_only_logs :
  (forall s, json_loads s <> Raise SystemExit) ->
  forall (stdin : list string) (w : world),
    exists l,
      daemon_loop json_loads jedi_Script stdin w
      = (EndOfInput, {| out := out w; log := app (log w) l |})
      /\ List.length l = List.length (lines_read stdin)
      /\ Forall (fun r => exists e,
                     r = LogException "failed to process line" e) l.
Proof.
  intros Hdec. induction stdin as [|line rest IH]; intros w.
  - exists []. simpl. rewrite app_nil_r. destruct w.
    repeat split. constructor.
  - simpl. destruct (line =? "") eqn:E.
    + exists []. simpl. rewrite app_nil_r. destruct w.
      repeat split. constructor.
    + simpl. unfold process_line.
      destruct (build_out_data_raises json_loads jedi_Script line)
        as (e & -> & He).
      simpl.
      assert (Hexc : is_Exception e = true).
      { apply is_Exception_iff. destruct He as [He | [_ He]].
        - intros ->. exact (Hdec _ He).
        - simpl in He. intuition (subst; discriminate). }
      rewrite Hexc.
      destruct (IH {| out := out w;
                      log := app (log w)
                               [LogException "failed to process line" e] |})
        as (l & Hrun & Hlen & Hall).
      exists (LogException "failed to process line" e :: l).
      simpl in Hrun. rewrite Hrun. repeat split.
      * simpl. now rewrite <- app_assoc.
      * simpl. now rewrite Hlen.
      * constructor; [now exists e | assumption].
Qed.

(** X20.  The loop stops at the first empty text that [readline]
    returns: what would be read after it plays no part in the run. *)
Theorem daemon_loop_stops_at_sentinel :
  forall (stdin : list string) (w : world),
    daemon_loop json_loads jedi_Script stdin w
    = daemon_loop json_loads jedi_Script (lines_read stdin) w.
Proof.
  induction stdin as [|line rest IH]; intros w; [reflexivity|].
  simpl. destruct (line =? "") eqn:E; [reflexivity|].
  simpl. rewrite E. simpl.
  destruct (process_line json_loads jedi_Script line (out w)) as [r o].
  destruct (guarded r (log w)); [apply IH | reflexivity].
Qed.

End DaemonCoverage.

Lemma constructor_rejects_request_witness :
  JediFacade_kwargs engine_path
    (PDict [("source", PStr "x"); ("line", PInt 1); ("offset", PInt 0);
            ("uuid", PStr "1")])
  = Raise TypeError.
Proof.
  apply constructor_rejects_request. left.
  exists "uuid", (PStr "1"). split.
  - right. right. right. now left.
  - simpl. intros [H | [H | [H | [H | [H | []]]]]]; discriminate.
Defined.


Lemma process_line_failure_by_shape_witness :
  process_line json_loads_ref engine_path request_rename stdout0
  = (Raise TypeError, stdout0)
  /\ process_line json_loads_ref engine_path request_without_uuid stdout0
     = (Raise KeyError, stdout0).
Proof.
  split.
  - exact (process_line_failure_by_shape json_loads_ref engine_path
             request_rename
             [("type", PStr "rename"); ("uuid", PStr "7")]
             (PStr "rename") stdout0 eq_refl eq_refl eq_refl).
  - exact (process_line_failure_by_shape json_loads_ref engine_path
             request_without_uuid [("type", PStr "goto")]
             (PStr "goto") stdout0 eq_refl eq_refl eq_refl).
Defined.

Lemma daemon_loop_only_logs_witness :
  exists l,
    daemon_loop json_loads_ref engine_path
      [request_line; request_rename; ""; request_without_uuid] world0
    = (EndOfInput, {| out := out world0; log := app (log world0) l |})
    /\ List.length l
       = List.length
           (lines_read
              [request_line; request_rename; ""; request_without_uuid])
    /\ Forall (fun r => exists e,
                   r = LogException "failed to process line" e) l.
Proof.
  exact (daemon_loop_only_logs json_loads_ref engine_path
           json_loads_ref_no_exit
           [request_line; request_rename; ""; request_without_uuid]
           world0).
Defined.

(** ** The output writer, continued *)

Lemma write_written (data : pyval) (o : stdout_t) (text : string) :
  text_of data = Ok text ->
  written (snd (write data o))
  = written o ++ text ++ (if endswith_nl text then "" else nl)
  /\ reader_gone (snd (write data o)) = reader_gone o
  /\ fst (write data o)
     = if reader_gone o then Raise SystemExit else Ok tt.
Proof.
  intros H. unfold write. rewrite H. simpl.
  destruct (endswith_nl text); simpl; unfold stdout_flush; simpl.
  - rewrite append_empty. repeat split. now destruct (reader_gone o).
  - rewrite append_assoc. repeat split. now destruct (reader_gone o).
Qed.



(** X22.  Two writes in a row leave on the stream the line of the first
    followed by the line of the second (each the text of the value, and
    a newline unless the text ends with one): responses reach the
    reader in the order they were written, nothing in between. *)
Theorem writes_in_order :
  forall (first second : pyval) (o : stdout_t) (t1 t2 : string),
    text_of first = Ok t1 ->
    text_of second = Ok t2 ->
    emitted o (snd (write second (snd (write first o))))
    = (t1 ++ (if endswith_nl t1 then "" else nl))
      ++ (t2 ++ (if endswith_nl t2 then "" else nl))
    /\ emitted o (snd (write second (snd (write first o))))
       = emitted o (snd (write first o))
         ++ emitted (snd (write first o))
              (snd (write second (snd (write first o)))).
Proof.
  intros first second o t1 t2 H1 H2.
  rewrite (write_emits first o t1 H1),
    (write_emits second (snd (write first o)) t2 H2).
  unfold emitted.
  destruct (write_written second (snd (write first o)) t2 H2) as (-> & _).
  destruct (write_written first o t1 H1) as (-> & _).
  rewrite append_assoc. now rewrite drop_append.
Qed.

Lemma writes_in_order_witness :
  emitted stdout0
    (snd (write (PStr "b") (snd (write (PList [PInt 3]) stdout0))))
  = "[3]" ++ nl ++ "b" ++ nl.
Proof.
  exact (proj1 (writes_in_order (PList [PInt 3]) (PStr "b") stdout0
                  "[3]" "b" eq_refl eq_refl)).
Defined.

(** X23.  Writing what a write has emitted emits it again unchanged:
    the writer adds nothing to a text that it has terminated itself. *)
Theorem write_of_emitted_is_verbatim :
  forall (data : pyval) (o o' : stdout_t) (text : string),
    text_of data = Ok text ->
    emitted o' (snd (write (PStr (emitted o (snd (write data o)))) o'))
    = emitted o (snd (write data o)).
Proof.
  intros data o o' text H.
  rewrite (write_emits data o text H).
  rewrite (write_emits (PStr _) o' _ eq_refl).
  destruct (endswith_nl text) eqn:E.
  - rewrite !append_empty, E. apply append_empty.
  - unfold nl. rewrite endswith_nl_snoc, Ascii.eqb_refl.
    apply append_empty.
Qed.

Lemma write_of_emitted_is_verbatim_witness :
  emitted stdout0
    (snd (write
            (PStr (emitted stdout0 (snd (write (PList [PInt 3]) stdout0))))
            stdout0))
  = emitted stdout0 (snd (write (PList [PInt 3]) stdout0)).
Proof.
  exact (write_of_emitted_is_verbatim (PList [PInt 3]) stdout0 stdout0
           "[3]" eq_refl).
Defined.

(** ** The envelope *)

Lemma pyval_nested_ind (P : pyval -> Prop) :
  P PNone ->
  (forall b, P (PBool b)) ->
  (forall z, P (PInt z)) ->
  (forall f, P (PFloat f)) ->
  (forall s, P (PStr s)) ->
  (forall l, Forall P l -> P (PList l)) ->
  (forall d, Forall (fun kv => P (snd kv)) d -> P (PDict d)) ->
  (forall a, P (PMethod a)) ->
  forall v, P v.
Proof.
  intros HN HB HI HF HS HL HD HM. fix IH 1.
  intros [|b|z|f|s|l|d|a];
    [exact HN | apply HB | apply HI | apply HF | apply HS | | | apply HM].
  - apply HL. induction l as [|x l IHl]; constructor; [apply IH | exact IHl].
  - apply HD. induction d as [|[k x] d IHd]; constructor;
      [apply IH | exact IHd].
Qed.

(** The serializer raises nothing but [TypeError]. *)
Lemma json_dumps_raises_TypeError (v : pyval) :
  forall e, json_dumps v = Raise e -> e = TypeError.
Proof.
  induction v as [|b|z|f|s|l IHl|d IHd|a] using pyval_nested_ind;
    intros e H; simpl in H; try discriminate H.
  - now destruct b.
  - match type of H with
    | bind ?x _ = _ => destruct x as [items|e0] eqn:E; [discriminate|]
    end.
    simpl in H. injection H as <-. revert e0 E.
    induction IHl as [|x l Hx _ IH]; intros e0 E; [discriminate|].
    destruct (json_dumps x) as [sx|ex] eqn:Ex; simpl in E.
    + match type of E with
      | bind ?y _ = _ => destruct y as [sr|er] eqn:Er; [discriminate|]
      end.
      simpl in E. injection E as <-. now apply IH.
    + injection E as <-. now apply Hx.
  - match type of H with
    | bind ?x _ = _ => destruct x as [items|e0] eqn:E; [discriminate|]
    end.
    simpl in H. injection H as <-. revert e0 E.
    induction IHd as [|[k x] d Hx _ IH]; intros e0 E; [discriminate|].
    simpl in Hx.
    destruct (json_dumps x) as [sx|ex] eqn:Ex; simpl in E.
    + match type of E with
      | bind ?y _ = _ => destruct y as [sr|er] eqn:Er; [discriminate|]
      end.
      simpl in E. injection E as <-. now apply IH.
    + injection E as <-. now apply Hx.
  - now injection H as <-.
Qed.

(** A dict that serializes has values that serialize. *)
Lemma json_dumps_dict_values (d : dict) (s : string) :
  json_dumps (PDict d) = Ok s ->
  forall k v, In (k, v) d -> exists sv, json_dumps v = Ok sv.
Proof.
  intros H. simpl in H.
  match type of H with
  | bind ?x _ = _ => destruct x as [items|e0] eqn:E; [|discriminate]
  end.
  clear H. revert items E.
  induction d as [|[k0 x] d IH]; intros items E k v Hin; [destruct Hin|].
  destruct (json_dumps x) as [sx|ex] eqn:Ex; simpl in E; [|discriminate].
  match type of E with
  | bind ?y _ = _ => destruct y as [sr|er] eqn:Er; [|discriminate]
  end.
  destruct Hin as [Hin | Hin].
  - injection Hin as <- <-. now exists sx.
  - exact (IH sr eq_refl k v Hin).
Qed.

Lemma dict_set_in (d : dict) (k : string) (v : pyval) :
  In (k, v) (dict_set d k v).
Proof.
  induction d as [|[k' v'] d IH]; simpl; [now left|].
  destruct (k' =? k) eqn:E.
  - apply String.eqb_eq in E. subst k'. now left.
  - now right.
Qed.

(** X24.  No envelope that [process_line] could build can be written:
    what the dispatcher returns for an action is a bound method, the
    envelope holds it under the action's name, and the writer raises
    [TypeError] on it, leaving the stream as it was. *)
Theorem envelope_is_never_written :
  forall (self : JediFacade) (uuid action_type operation out_data : pyval)
         (o : stdout_t),
    get self action_type = Ok operation ->
    out_data_of uuid action_type operation = Ok out_data ->
    write out_data o = (Raise TypeError, o).
Proof.
  intros self uuid action_type operation out_data o Hget Hout.
  destruct action_type as [| | | |a| | |]; try discriminate Hout.
  unfold get, facade_getattr in Hget.
  destruct (existsb _ _) in Hget; [|discriminate].
  injection Hget as <-.
  pose (d := dict_set
               (dict_set (dict_set [] "uuid" uuid) "type" (PStr a)) a
               (PMethod ("get_" ++ a))).
  assert (Hd : out_data = PDict d).
  { unfold out_data_of in Hout. injection Hout as Hout.
    symmetry. exact Hout. }
  rewrite Hd. clear Hd Hout. unfold write.
  change (text_of (PDict d)) with (json_dumps (PDict d)).
  destruct (json_dumps (PDict d)) as [s|e] eqn:E.
  - exfalso.
    destruct (json_dumps_dict_values d s E a (PMethod ("get_" ++ a))
                (dict_set_in _ _ _)) as [sv Hsv].
    discriminate Hsv.
  - now rewrite (json_dumps_raises_TypeError _ _ E).
Qed.

Lemma envelope_is_never_written_witness :
  write
    (PDict [("uuid", PStr "1"); ("type", PStr "goto");
            ("goto", PMethod "get_goto")])
    stdout0
  = (Raise TypeError, stdout0).
Proof.
  exact (envelope_is_never_written (facade_on None []) (PStr "1")
           (PStr "goto") (PMethod "get_goto") _ stdout0 eq_refl eq_refl).
Defined.

(** ** The search path *)

Lemma add_extra_folders_cons (f : string) (extra_folders sys_path
    : list string) :
  add_extra_folders (f :: extra_folders) sys_path
  = add_extra_folders extra_folders
      (if existsb (String.eqb f) sys_path then sys_path else f :: sys_path).
Proof. reflexivity. Qed.

Lemma existsb_eqb_In (f : string) (l : list string) :
  existsb (String.eqb f) l = true <-> In f l.
Proof.
  rewrite existsb_exists. split.
  - intros (x & Hx & E). apply String.eqb_eq in E. now subst.
  - intros H. exists f. split; [assumption | apply String.eqb_refl].
Qed.

(** X25.  After the loop over the extra folders, [sys.path] is what it
    was with new entries in front: the entries it had keep their places
    and order, the new ones are exactly the extra folders it did not
    have, each once; so every extra folder is on the path, and a path
    without duplicates stays without duplicates. *)
Theorem add_extra_folders_prepends :
  forall (extra_folders sys_path : list string),
    exists added,
      add_extra_folders extra_folders sys_path = app added sys_path
      /\ NoDup added
      /\ (forall f, In f added <-> In f extra_folders /\ ~ In f sys_path)
      /\ (forall f, In f extra_folders ->
                    In f (add_extra_folders extra_folders sys_path))
      /\ (NoDup sys_path ->
          NoDup (add_extra_folders extra_folders sys_path)).
Proof.
  intros extra_folders.
  enough (H : forall sys_path,
             exists added,
               add_extra_folders extra_folders sys_path = app added sys_path
               /\ NoDup added
               /\ (forall f,
                      In f added <-> In f extra_folders /\ ~ In f sys_path)).
  { intros sys_path. destruct (H sys_path) as (added & E & Hnd & Hin).
    exists added.
    split; [exact E|]. split; [exact Hnd|]. split; [exact Hin|]. split.
    - intros f Hf. rewrite E. apply in_or_app.
      destruct (in_dec string_dec f sys_path) as [Hp | Hp];
        [now right | left; apply Hin; now split].
    - intros Hp. rewrite E. apply NoDup_app; try assumption.
      intros f Hf Hfp. apply Hin in Hf. now destruct Hf. }
  induction extra_folders as [|x xs IH]; intros sys_path.
  - exists []. split; [reflexivity|]. split; [constructor|].
    intros f. simpl. tauto.
  - rewrite add_extra_folders_cons.
    destruct (existsb (String.eqb x) sys_path) eqn:E.
    + apply existsb_eqb_In in E.
      destruct (IH sys_path) as (added & Eq & Hnd & Hin).
      exists added. split; [exact Eq|]. split; [exact Hnd|].
      intros f. rewrite Hin. simpl. split.
      * intros [Hf Hp]. split; [now right | assumption].
      * intros [[<- | Hf] Hp]; [now elim Hp | now split].
    + assert (Hx : ~ In x sys_path).
      { intros Hx. apply existsb_eqb_In in Hx. rewrite Hx in E.
        discriminate. }
      destruct (IH (x :: sys_path)) as (added & Eq & Hnd & Hin).
      exists (app added [x]). split.
      { rewrite Eq. now rewrite <- app_assoc. }
      split.
      { apply NoDup_app; [assumption | repeat constructor; intros [] |].
        intros f Hf [<- | []]. apply Hin in Hf as [_ Hf]. apply Hf.
        now left. }
      intros f. rewrite in_app_iff, Hin. simpl. split.
      * intros [[Hf Hp] | [<- | []]].
        -- split; [now right|]. intros Hq. apply Hp. now right.
        -- split; [now left | assumption].
      * intros [[<- | Hf] Hp]; [right; now left|].
        destruct (string_dec x f) as [<- | Hne]; [right; now left|].
        left. split; [assumption|].
        intros [Hq | Hq]; [now elim Hne | now elim Hp].
Qed.

(** X26.  Extra folders that are new and all different are put in front
    in reverse: the folder given last is searched first. *)
Theorem add_extra_folders_reverses :
  forall (extra_folders sys_path : list string),
    NoDup extra_folders ->
    (forall f, In f extra_folders -> ~ In f sys_path) ->
    add_extra_folders extra_folders sys_path
    = app (rev extra_folders) sys_path.
Proof.
  induction extra_folders as [|x xs IH]; intros sys_path Hnd Hnew;
    [reflexivity|].
  rewrite add_extra_folders_cons.
  assert (E : existsb (String.eqb x) sys_path = false).
  { destruct (existsb (String.eqb x) sys_path) eqn:E; [|reflexivity].
    apply existsb_eqb_In in E. elim (Hnew x); [now left | assumption]. }
  rewrite E. inversion Hnd as [|? ? Hx Hxs]; subst.
  rewrite IH; [simpl; now rewrite <- app_assoc | assumption |].
  intros f Hf [<- | Hp]; [now elim Hx|].
  elim (Hnew f); [now right | assumption].
Qed.

Lemma add_extra_folders_reverses_witness :
  add_extra_folders ["/a"; "/b"] ["/usr/lib"]
  = app (rev ["/a"; "/b"]) ["/usr/lib"].
Proof.
  apply add_extra_folders_reverses.
  - repeat constructor; simpl; intuition discriminate.
  - simpl. intros f [<- | [<- | []]] [H | []]; discriminate.
Defined.

(** X27.  Extra folders that are already on the path change nothing:
    they are not moved to the front. *)
Theorem add_extra_folders_present :
  forall (extra_folders sys_path : list string),
    (forall f, In f extra_folders -> In f sys_path) ->
    add_extra_folders extra_folders sys_path = sys_path.
Proof.
  induction extra_folders as [|x xs IH]; intros sys_path H; [reflexivity|].
  rewrite add_extra_folders_cons.
  assert (E : existsb (String.eqb x) sys_path = true).
  { apply existsb_eqb_In. apply H. now left. }
  rewrite E. apply IH. intros f Hf. apply H. now right.
Qed.

Lemma add_extra_folders_present_witness :
  add_extra_folders ["/usr/lib"; "/usr/lib"] ["/opt"; "/usr/lib"]
  = ["/opt"; "/usr/lib"].
Proof.
  apply add_extra_folders_present.
  simpl. intros f [<- | [<- | []]]; tauto.
Defined.
